(** * Image gallery: upload intake, listing and gallery rendering

    A shallow embedding of the image-uploader application:
    - the browser script [public/src/main.js] ([loadImages],
      [displayImages], [escapeHtml]),
    - the Express server ([fileFilter], the multer storage callbacks, the
      [POST /upload] and [GET /api/images] handlers, the delayed
      readiness probe).

    JavaScript strings are modelled as [string]; a string is read as the
    UTF-8 encoding of the JavaScript text, so the ASCII characters the code
    inspects (slash, dot, ampersand, angle brackets) are single characters.
    Numbers that the code only ever prints (the millisecond clock, the
    rounded random draw) are naturals of type [N].

    The application is glue over libraries: Node's [path], multer and its
    multipart parser, Express, the PocketBase client and the DOM. Each is
    modelled by the part of its behaviour the application relies on:
    [path.extname] by its loop, multer by the order in which it calls the
    filter, the storage engine and the size limit, Express by its final
    error handler, PocketBase by a collection of records, the DOM by the
    [innerHTML] of the elements that have an id. What a request observes
    from outside (clock, random draw, the store's answer) is an input,
    and so is what the source leaves to the installation: the release of
    multer, which decides on a body of exactly the size limit, and the
    answer of the file system when the upload is written. *)

From Stdlib Require Import ZArith String Ascii DecimalString DecimalPos
  DecimalN Sorting.Sorted Sorting.Permutation Lia Bool.
From stdpp Require Import gmap strings list.

Local Open Scope Z_scope.

(** ** Strings *)

Module Str.

(** The double quote, written by code so that no literal needs it. *)
Definition dq : string := String "034"%char EmptyString.

Definition chars (s : string) : list ascii := list_ascii_of_string s.
Definition of_chars (l : list ascii) : string := string_of_list_ascii l.

(** [String.prototype.slice(from, to)] on the list of characters: a
    negative index counts from the end, both are clamped to the length. *)
Definition clamp (len k : Z) : Z :=
  if k <? 0 then Z.max (len + k) 0 else Z.min k len.

Definition slice (l : list ascii) (from to : Z) : list ascii :=
  let len := Z.of_nat (length l) in
  let a := clamp len from in
  let b := clamp len to in
  take (Z.to_nat (Z.max (b - a) 0)) (drop (Z.to_nat a) l).

(** [String.prototype.startsWith]. *)
Fixpoint startsWith (s p : string) {struct p} : bool :=
  match p, s with
  | EmptyString, _ => true
  | String c p', String d s' => Ascii.eqb c d && startsWith s' p'
  | String _ _, EmptyString => false
  end.

(** [Array.prototype.join('')] over strings. *)
Fixpoint join (l : list string) : string :=
  match l with
  | [] => EmptyString
  | s :: r => s +:+ join r
  end.

(** Decimal rendering of a non-negative integer ([Number] to string
    below 1e21). *)
Definition dec (n : N) : string := NilEmpty.string_of_uint (N.to_uint n).

(** Number of positions of [s] at which [p] occurs. *)
Fixpoint occurrences (p s : string) : nat :=
  match s with
  | EmptyString => if String.eqb p EmptyString then 1%nat else 0%nat
  | String _ s' =>
      ((if startsWith s p then 1 else 0) + occurrences p s')%nat
  end.

Definition contains (c : ascii) (s : string) : bool :=
  existsb (Ascii.eqb c) (chars s).

End Str.

(** ** Node's [path.extname] (POSIX flavour)

    The loop of [lib/path.js] with its five local variables, walking the
    path from its last code unit to its first. *)

Module Path.

Definition CHAR_FORWARD_SLASH : ascii := "/"%char.
Definition CHAR_DOT : ascii := "."%char.

Record scan : Type := Scan
  { startDot : Z; startPart : Z; end_ : Z;
    matchedSlash : bool; preDotState : Z }.

Definition scan0 : scan :=
  {| startDot := -1; startPart := 0; end_ := -1;
     matchedSlash := true; preDotState := 0 |}.

Inductive flow : Type :=
| Continue (s : scan)
| Break (s : scan).

(** "We saw the first non-path separator, mark this as the end of our
    extension". *)
Definition mark_end (i : Z) (s : scan) : scan :=
  if end_ s =? -1
  then {| startDot := startDot s; startPart := startPart s;
          end_ := i + 1; matchedSlash := false;
          preDotState := preDotState s |}
  else s.

Definition dot_logic (i : Z) (code : ascii) (s : scan) : scan :=
  if Ascii.eqb code CHAR_DOT then
    if startDot s =? -1
    then {| startDot := i; startPart := startPart s; end_ := end_ s;
            matchedSlash := matchedSlash s; preDotState := preDotState s |}
    else if negb (preDotState s =? 1)
    then {| startDot := startDot s; startPart := startPart s;
            end_ := end_ s; matchedSlash := matchedSlash s;
            preDotState := 1 |}
    else s
  else if negb (startDot s =? -1)
  then {| startDot := startDot s; startPart := startPart s;
          end_ := end_ s; matchedSlash := matchedSlash s;
          preDotState := -1 |}
  else s.

(** One iteration of the [for] loop at index [i]. *)
Definition body (i : Z) (code : ascii) (s : scan) : flow :=
  if Ascii.eqb code CHAR_FORWARD_SLASH then
    if negb (matchedSlash s)
    then Break {| startDot := startDot s; startPart := i + 1;
                  end_ := end_ s; matchedSlash := matchedSlash s;
                  preDotState := preDotState s |}
    else Continue s
  else Continue (dot_logic i code (mark_end i s)).

(** [for (let i = path.length - 1; i >= 0; --i)]: [codes] lists
    path[i], path[i-1], ..., path[0]. *)
Fixpoint loop (codes : list ascii) (i : Z) (s : scan) : scan :=
  match codes with
  | [] => s
  | code :: rest =>
      match body i code s with
      | Continue s' => loop rest (i - 1) s'
      | Break s' => s'
      end
  end.

Definition extname_chars (path : list ascii) : list ascii :=
  let s := loop (rev path) (Z.of_nat (length path) - 1) scan0 in
  if (startDot s =? -1)
     || (end_ s =? -1)
     || (preDotState s =? 0)
     || ((preDotState s =? 1)
         && (startDot s =? end_ s - 1)
         && (startDot s =? startPart s + 1))
  then []
  else Str.slice path (startDot s) (end_ s).

Definition extname (path : string) : string :=
  Str.of_chars (extname_chars (Str.chars path)).

End Path.

(** ** Filename Generator: the [filename] callback of [multer.diskStorage]

    [now] is [Date.now()], [salt] is [Math.round(Math.random() * 1E9)]. *)

Module Storage.

Definition uniqueSuffix (now salt : N) : string :=
  Str.dec now +:+ "-" +:+ Str.dec salt.

Definition filename (now salt : N) (originalname : string) : string :=
  let ext := Path.extname originalname in
  uniqueSuffix now salt +:+ ext.

End Storage.

(** ** JavaScript values crossing the HTTP boundary *)

Module Js.

(** An [Error] object: constructor name, multer's [code] when it is a
    [MulterError], the message, and the [status] property that Express
    consults (never set by this application). *)
Record Error : Type := MkError
  { err_name : string; err_code : option string;
    err_message : string; err_status : option Z }.

Definition new_Error (msg : string) : Error :=
  {| err_name := "Error"; err_code := None;
     err_message := msg; err_status := None |}.

#[warnings="-register-all"]
Inductive Json : Type :=
| JNull
| JBool (b : bool)
| JNum (n : Z)
| JStr (s : string)
| JArr (items : list Json)
| JObj (fields : list (string * Json)).

End Js.

(** ** Metadata Store: the PocketBase collection [images] *)

Module Store.

Record ImageData : Type := MkImageData
  { d_name : string; d_location : string; d_mime_type : string }.

(** [created] and [updated] are the store's timestamps, as a count of
    milliseconds. *)
Record ImageRecord : Type := MkImageRecord
  { id : string; name : string; location : string; mime_type : string;
    created : N; updated : N }.

Definition record_json (r : ImageRecord) : Js.Json :=
  Js.JObj [("id", Js.JStr (id r)); ("name", Js.JStr (name r));
           ("location", Js.JStr (location r));
           ("mime_type", Js.JStr (mime_type r));
           ("created", Js.JNum (Z.of_N (created r)));
           ("updated", Js.JNum (Z.of_N (updated r)))]%string.

(** What the service answers to one [create] call: a failure with its
    message (network, schema rejection), or the server-assigned id and
    timestamp. *)
Inductive CreateReply : Type :=
| Rejected (message : string)
| Assigned (new_id : string) (stamp : N).

Definition client_error (msg : string) : Js.Error :=
  {| Js.err_name := "ClientResponseError"; Js.err_code := None;
     Js.err_message := msg; Js.err_status := None |}.

(** [pb.collection('images').create(data)] *)
Definition create (reply : CreateReply) (data : ImageData)
    (coll : list ImageRecord)
  : Js.Error + (ImageRecord * list ImageRecord) :=
  match reply with
  | Rejected msg => inl (client_error msg)
  | Assigned i t =>
      let r := {| id := i; name := d_name data;
                  location := d_location data;
                  mime_type := d_mime_type data;
                  created := t; updated := t |} in
      inr (r, coll ++ [r])
  end.

(** Sort expressions of the list API: an optional [-] for descending
    order, then a field name. *)
Inductive Field : Type := FId | FName | FLocation | FMime | FCreated | FUpdated.

Definition field_of_string (s : string) : option Field :=
  if String.eqb s "id" then Some FId
  else if String.eqb s "name" then Some FName
  else if String.eqb s "location" then Some FLocation
  else if String.eqb s "mime_type" then Some FMime
  else if String.eqb s "created" then Some FCreated
  else if String.eqb s "updated" then Some FUpdated
  else None.

Definition parse_sort (s : string) : option (bool * Field) :=
  match s with
  | String "-" f => option_map (pair true) (field_of_string f)
  | _ => option_map (pair false) (field_of_string s)
  end.

Definition field_leb (f : Field) (a b : ImageRecord) : bool :=
  match f with
  | FId => String.leb (id a) (id b)
  | FName => String.leb (name a) (name b)
  | FLocation => String.leb (location a) (location b)
  | FMime => String.leb (mime_type a) (mime_type b)
  | FCreated => N.leb (created a) (created b)
  | FUpdated => N.leb (updated a) (updated b)
  end.

(** [before (desc, f) a b]: [a] may precede [b] in the result. *)
Definition before (o : bool * Field) (a b : ImageRecord) : bool :=
  if fst o then field_leb (snd o) b a else field_leb (snd o) a b.

Fixpoint insert_sorted (o : bool * Field) (r : ImageRecord)
    (l : list ImageRecord) : list ImageRecord :=
  match l with
  | [] => [r]
  | x :: l' =>
      if before o r x then r :: l else x :: insert_sorted o r l'
  end.

Definition order_by (o : bool * Field) (l : list ImageRecord)
  : list ImageRecord :=
  fold_right (insert_sorted o) [] l.

Record ListOptions : Type := MkListOptions { sort : string }.

(** [pb.collection('images').getFullList(options)]: every record of
    the collection, in the requested order; [fault] is the failure of
    the call, when there is one. *)
Definition getFullList (fault : option string) (options : ListOptions)
    (coll : list ImageRecord) : Js.Error + list ImageRecord :=
  match fault with
  | Some msg => inl (client_error msg)
  | None =>
      match parse_sort (sort options) with
      | Some o => inr (order_by o coll)
      | None => inl (client_error "Something went wrong while processing your request.")
      end
  end.

End Store.

(** ** The Express server *)

Module Server.

(** Maximum file size limit - 10MB. *)
Definition MAX_FILE_SIZE : N := 10 * 1024 * 1024.

(** One file part of a multipart body, as the multipart parser hands it
    to multer: field name, client file name, declared content type, and
    the number of bytes of its body. *)
Record Part : Type := MkPart
  { fieldname : string; originalname : string;
    mimetype : string; size : N }.

(** [req.file] once the storage engine has finished. *)
Record File : Type := MkFile
  { file_originalname : string; file_mimetype : string;
    file_filename : string; file_size : N }.

(** The upload directory: size of each stored file by name, and the
    total number of body bytes ever handed to the file system. *)
Record Fs : Type := MkFs { files : gmap string N; written : N }.

(** The request as the route sees it: [None] when the body is not
    multipart or carries no file part. *)
Record Request : Type := MkRequest { req_part : option Part }.

(** What is sent back: the JSON value given to [res.json], or the page
    of Express's final handler, an HTML page made from the error (its
    stack, or only the status text when NODE_ENV is production); the
    text of that page is left open. *)
Inductive Body : Type :=
| Json (j : Js.Json)
| ErrorPage.

Record Response : Type := MkResponse { status : Z; body : Body }.

(** What the file system answers when the storage engine creates the
    file: it is created and takes the stream, or the creation is refused
    (missing directory, no permission) with an error code and text. *)
Inductive DiskReply : Type :=
| Written
| Refused (code message : string).

(** What the source does not fix: the release of multer that is
    installed (the repository pins none) and the machine it runs on.
    Releases differ on a body of exactly the size limit, which some
    refuse like a longer one, on the number of bytes already written
    when an oversized upload is aborted, and on the wording of the
    unexpected-field error. *)
Record Runtime : Type := MkRuntime
  { refuses_at_limit : bool;
    unexpected_field_text : string;
    disk_reply : DiskReply;
    spilled : N;
    path_error_text : string }.

(** What one request observes from outside the source. *)
Record Env : Type := MkEnv
  { now : N; salt : N; create_reply : Store.CreateReply;
    runtime : Runtime }.

Record World : Type := MkWorld
  { fs : Fs; collection : list Store.ImageRecord }.

(** *** [fileFilter] *)

Definition allowedTypes : list string :=
  ["image/jpeg"; "image/jpg"; "image/png"; "image/gif"]%string.

(** [Array.prototype.includes] on strings. *)
Definition includes (l : list string) (x : string) : bool :=
  existsb (String.eqb x) l.

Definition invalid_type_message : string :=
  "Invalid file type. Only JPG, PNG, and GIF are allowed.".

(** The two arguments given to [cb]. *)
Definition fileFilter (file : Part) : option Js.Error * bool :=
  if includes allowedTypes (mimetype file)
  then (None, true)
  else (Some (Js.new_Error invalid_type_message), false).

(** *** multer *)

Record DiskStorage : Type := MkDiskStorage
  { filename : N -> N -> string -> string }.

Definition storage : DiskStorage :=
  {| filename := Storage.filename |}.

Record Options : Type := MkOptions
  { opt_storage : DiskStorage;
    opt_fileSize : N;
    opt_fileFilter : Part -> option Js.Error * bool }.

Definition upload : Options :=
  {| opt_storage := storage;
     opt_fileSize := MAX_FILE_SIZE;
     opt_fileFilter := fileFilter |}.

Definition MulterError (code msg : string) : Js.Error :=
  {| Js.err_name := "MulterError"; Js.err_code := Some code;
     Js.err_message := msg; Js.err_status := None |}.

(** An error of the file system layer; it has no [status]. *)
Definition system_error (code msg : string) : Js.Error :=
  {| Js.err_name := "Error"; Js.err_code := Some code;
     Js.err_message := msg; Js.err_status := None |}.

(** Node's error for a path that holds a NUL character. *)
Definition invalid_path_error (e : Env) : Js.Error :=
  {| Js.err_name := "TypeError"; Js.err_code := Some "ERR_INVALID_ARG_VALUE";
     Js.err_message := path_error_text (runtime e); Js.err_status := None |}.

(** Why the storage engine cannot create [UPLOAD_DIR/<name>], when it
    cannot: Node refuses a path that holds a NUL character, otherwise
    the file system decides. *)
Definition write_refusal (e : Env) (fname : string) : option Js.Error :=
  if Str.contains "000" fname then Some (invalid_path_error e)
  else
    match disk_reply (runtime e) with
    | Refused code msg => Some (system_error code msg)
    | Written => None
    end.

(** Whether the multipart parser raises its limit event for a body of
    [size] bytes. *)
Definition over_limit (e : Env) (limit size : N) : bool :=
  (limit <? size)%N || (refuses_at_limit (runtime e) && (size =? limit)%N).

(** The disk storage engine creates [UPLOAD_DIR/<name>], replacing a
    file of that name, and streams the body into it: [n] bytes end up in
    the file. *)
Definition handleFile (fname : string) (n : N) (d : Fs) : Fs :=
  {| files := <[fname := n]> (files d); written := (written d + n)%N |}.

(** [fs.unlink] of a stored upload. *)
Definition removeFile (fname : string) (d : Fs) : Fs :=
  {| files := delete fname (files d); written := written d |}.

(** [upload.single(field)]. A part without a file name is passed over.
    Otherwise the field name is checked, then the file filter runs, both
    before the storage engine is started; the storage engine creates the
    file under the generated name and streams the body into it; when the
    parser raises its limit event the request is aborted and the stored
    file removed. The result is the error given to [next], or
    [req.file]. *)
Definition single (o : Options) (field : string) (e : Env)
    (req : Request) (d : Fs) : Fs * (Js.Error + option File) :=
  match req_part req with
  | None => (d, inr None)
  | Some part =>
      if String.eqb (originalname part) EmptyString then (d, inr None)
      else if negb (String.eqb (fieldname part) field)
      then (d, inl (MulterError "LIMIT_UNEXPECTED_FILE"
                      (unexpected_field_text (runtime e))))
      else
        match opt_fileFilter o part with
        | (Some err, _) => (d, inl err)
        | (None, false) => (d, inr None)
        | (None, true) =>
            let fname :=
              filename (opt_storage o) (now e) (salt e)
                       (originalname part) in
            match write_refusal e fname with
            | Some err => (d, inl err)
            | None =>
                if over_limit e (opt_fileSize o) (size part)
                then (removeFile fname
                        (handleFile fname (spilled (runtime e)) d),
                      inl (MulterError "LIMIT_FILE_SIZE" "File too large"))
                else (handleFile fname (size part) d,
                      inr (Some {| file_originalname := originalname part;
                                   file_mimetype := mimetype part;
                                   file_filename := fname;
                                   file_size := size part |}))
            end
        end
  end.

(** *** Express *)

(** [res.json(v)] answers with the current status, 200 unless
    [res.status] was called. *)
Definition json (code : Z) (j : Js.Json) : Response :=
  {| status := code; body := Json j |}.

(** The application registers no error-handling middleware, so an
    error given to [next] reaches Express's final handler: the error's
    own [status] when it is a 4xx or 5xx code, otherwise 500, with an
    HTML page. *)
Definition finalhandler (err : Js.Error) : Response :=
  {| status :=
       match Js.err_status err with
       | Some s => if (400 <=? s) && (s <? 600) then s else 500
       | None => 500
       end;
     body := ErrorPage |}.

(** The [async (req, res)] callback of [app.post('/upload', ...)]. *)
Definition upload_handler (e : Env) (file : option File) (w : World)
  : World * Response :=
  match file with
  | None => (w, json 400 (Js.JObj [("error", Js.JStr "No file uploaded")]%string))
  | Some f =>
      let filePath := ("/uploads/" +:+ file_filename f)%string in
      let imageData :=
        {| Store.d_name := file_originalname f;
           Store.d_location := filePath;
           Store.d_mime_type := file_mimetype f |} in
      match Store.create (create_reply e) imageData (collection w) with
      | inr (record, coll') =>
          ({| fs := fs w; collection := coll' |},
           json 200 (Js.JObj [("success", Js.JBool true);
                              ("message", Js.JStr "Image uploaded successfully");
                              ("data", Store.record_json record)]%string))
      | inl error =>
          (w, json 500 (Js.JObj [("error", Js.JStr "Failed to upload image");
                                 ("message", Js.JStr (Js.err_message error))]%string))
      end
  end.

(** [app.post('/upload', upload.single('image'), handler)] *)
Definition post_upload (e : Env) (req : Request) (w : World)
  : World * Response :=
  match single upload "image" e req (fs w) with
  | (d, inl err) =>
      ({| fs := d; collection := collection w |}, finalhandler err)
  | (d, inr file) =>
      upload_handler e file {| fs := d; collection := collection w |}
  end.

(** The options given to [getFullList] by the listing route: a sort
    expression and nothing else. *)
Definition images_query : Store.ListOptions := {| Store.sort := "-created" |}.

(** The [async (req, res)] callback of [app.get('/api/images', ...)],
    given what the awaited [getFullList] call yields: the records, or
    the error it throws. *)
Definition list_handler (answer : Js.Error + list Store.ImageRecord)
  : Response :=
  match answer with
  | inr records => json 200 (Js.JArr (map Store.record_json records))
  | inl error =>
      json 500 (Js.JObj [("error", Js.JStr "Failed to fetch images");
                         ("message", Js.JStr (Js.err_message error))]%string)
  end.

(** [app.get('/api/images', ...)]; [fault] is the failure of the store
    call, when there is one. *)
Definition get_api_images (fault : option string) (w : World) : Response :=
  list_handler (Store.getFullList fault images_query (collection w)).

End Server.

(** ** The gallery script run by the browser *)

Module Gallery.

(** The document: [innerHTML] of each element that has an id. *)
Abbreviation Document := (gmap string string).

(** How [fetch('/api/images')] followed by [response.json()] ends:
    [fetch] rejects, or a response arrives with its status and a body
    that parses to an array of records ([Some]) or does not parse
    ([None]). *)
Inductive FetchResult : Type :=
| NetworkError
| Responded (code : Z) (payload : option (list Store.ImageRecord)).

(** [response.ok] *)
Definition ok (code : Z) : bool := (200 <=? code) && (code <=? 299).

Definition nl : string := String "010"%char EmptyString.

(** U+2022, the bullet of the meta line. *)
Definition bullet : string :=
  String "226"%char (String "128"%char (String "162"%char EmptyString)).

(** [escapeHtml]: a text node is given the text and its [innerHTML] is
    read back, which is the HTML serialisation of the text: ampersand,
    the two angle brackets and the no-break space (U+00A0) become
    character references. *)
Fixpoint escapeHtml (text : string) : string :=
  match text with
  | EmptyString => EmptyString
  | String c rest =>
      if Ascii.eqb c "&" then "&amp;" +:+ escapeHtml rest
      else if Ascii.eqb c "<" then "&lt;" +:+ escapeHtml rest
      else if Ascii.eqb c ">" then "&gt;" +:+ escapeHtml rest
      else
        match rest with
        | String d rest' =>
            if Ascii.eqb c "194" && Ascii.eqb d "160"
            then "&nbsp;" +:+ escapeHtml rest'
            else String c (escapeHtml rest)
        | EmptyString => String c (escapeHtml rest)
        end
  end.

Definition error_markup : string :=
  "<p class=" +:+ Str.dq +:+ "error" +:+ Str.dq
  +:+ ">Failed to load images. Please try again later.</p>".

Definition empty_markup : string := "<p>No images uploaded yet.</p>".

(** The text a markup fragment displays: everything outside its tags. *)
Fixpoint text_outside_tags (in_tag : bool) (markup : string) : string :=
  match markup with
  | EmptyString => EmptyString
  | String c rest =>
      if in_tag
      then text_outside_tags (negb (Ascii.eqb c ">")) rest
      else if Ascii.eqb c "<" then text_outside_tags true rest
      else String c (text_outside_tags false rest)
  end.

Definition rendered_text (markup : string) : string :=
  text_outside_tags false markup.

Section Rendering.

(** [formatDate]: the locale rendering of a timestamp. *)
Variable formatDate : N -> string.

(** The arrow function given to [images.map]. *)
Definition card (image : Store.ImageRecord) : string :=
  let imageUrl :=
    if Str.startsWith (Store.location image) "/"
    then Store.location image
    else "/" +:+ Store.location image in
  nl +:+ "      <div class=" +:+ Str.dq +:+ "image-card" +:+ Str.dq +:+ ">"
  +:+ nl +:+ "        <img src=" +:+ Str.dq +:+ imageUrl +:+ Str.dq
  +:+ " alt=" +:+ Str.dq +:+ Store.name image +:+ Str.dq
  +:+ " loading=" +:+ Str.dq +:+ "lazy" +:+ Str.dq +:+ ">"
  +:+ nl +:+ "        <div class=" +:+ Str.dq +:+ "image-info" +:+ Str.dq +:+ ">"
  +:+ nl +:+ "          <p class=" +:+ Str.dq +:+ "image-name" +:+ Str.dq +:+ ">"
  +:+ escapeHtml (Store.name image) +:+ "</p>"
  +:+ nl +:+ "          <p class=" +:+ Str.dq +:+ "image-meta" +:+ Str.dq +:+ ">"
  +:+ Store.mime_type image +:+ " " +:+ bullet +:+ " "
  +:+ formatDate (Store.created image) +:+ "</p>"
  +:+ nl +:+ "        </div>"
  +:+ nl +:+ "      </div>"
  +:+ nl +:+ "    ".

Definition displayImages (images : list Store.ImageRecord)
    (doc : Document) : Document :=
  match doc !! "gallery"%string with
  | None => doc
  | Some _ =>
      match images with
      | [] => <["gallery"%string := empty_markup]> doc
      | _ => <["gallery"%string := Str.join (map card images)]> doc
      end
  end.

(** The [try] block up to the call of [displayImages]: [None] when an
    exception is thrown. *)
Definition fetched (r : FetchResult) : option (list Store.ImageRecord) :=
  match r with
  | NetworkError => None
  | Responded code payload => if negb (ok code) then None else payload
  end.

(** The [catch] block. *)
Definition show_error (doc : Document) : Document :=
  match doc !! "gallery"%string with
  | Some _ => <["gallery"%string := error_markup]> doc
  | None => doc
  end.

Definition loadImages (r : FetchResult) (doc : Document) : Document :=
  match fetched r with
  | Some images => displayImages images doc
  | None => show_error doc
  end.

End Rendering.

End Gallery.

(** ** Reference descriptions used by the proofs *)

Module Ref.

(** The last path component split at its last dot: what stands before
    the dot and what follows it. *)
Fixpoint split_last_dot (l : list ascii) : option (list ascii * list ascii) :=
  match l with
  | [] => None
  | c :: r =>
      match split_last_dot r with
      | Some (a, w) => Some (c :: a, w)
      | None => if Ascii.eqb c Path.CHAR_DOT then Some ([], r) else None
      end
  end.

(** The extension of a non-empty, slash-free path component. *)
Definition ext_of_component (comp : list ascii) : list ascii :=
  match split_last_dot comp with
  | None => []
  | Some ([], _) => []
  | Some ([c], []) => if Ascii.eqb c Path.CHAR_DOT then [] else [Path.CHAR_DOT]
  | Some (_, w) => Path.CHAR_DOT :: w
  end.

(** [preDotState] after the characters before the dot were walked,
    last to first. *)
Fixpoint pds (walked : list ascii) (d : Z) : Z :=
  match walked with
  | [] => d
  | c :: l => pds l (if Ascii.eqb c Path.CHAR_DOT then 1 else -1)
  end.

Definition with_pds (s : Path.scan) (d : Z) : Path.scan :=
  {| Path.startDot := Path.startDot s; Path.startPart := Path.startPart s;
     Path.end_ := Path.end_ s; Path.matchedSlash := Path.matchedSlash s;
     Path.preDotState := d |}.

(** The loop started at the last index of [codes]. *)
Definition run (codes : list ascii) (s : Path.scan) : Path.scan :=
  Path.loop codes (Z.of_nat (length codes) - 1) s.

Definition is_slash (c : ascii) : Prop := c = Path.CHAR_FORWARD_SLASH.
Definition not_slash (c : ascii) : Prop := c <> Path.CHAR_FORWARD_SLASH.
Definition not_dot (c : ascii) : Prop := c <> Path.CHAR_DOT.
Definition plain (c : ascii) : Prop := not_slash c /\ not_dot c.

(** A prefix that ends where a path component starts. *)
Definition boundary (pre : list ascii) : Prop :=
  pre = [] \/ exists pre', pre = pre' ++ [Path.CHAR_FORWARD_SLASH].

(** Characters no POSIX file name may contain: the NUL character and the
    path separator. *)
Definition unsafe_path_char (c : ascii) : bool :=
  Ascii.eqb c "000" || Ascii.eqb c "/".

Definition path_safe (s : string) : bool :=
  forallb (fun c => negb (unsafe_path_char c)) (Str.chars s).

Definition is_digit (c : ascii) : bool :=
  (48 <=? nat_of_ascii c)%nat && (nat_of_ascii c <=? 57)%nat.

(** Reading a decimal numeral back. *)
Definition parse_dec (s : string) : option N :=
  option_map N.of_uint (NilEmpty.uint_of_string s).

(** The MIME types named by the allow-list. *)
Definition allowed_mime (m : string) : Prop :=
  m = "image/jpeg"%string \/ m = "image/jpg"%string \/
  m = "image/png"%string \/ m = "image/gif"%string.

(** Number of slashes a string starts with. *)
Fixpoint leading_slashes (s : string) : nat :=
  match s with
  | String c r => if Ascii.eqb c "/" then S (leading_slashes r) else 0%nat
  | EmptyString => 0%nat
  end.

(** The API call of the gallery fails: [fetch] rejects, the status is
    outside 200..299, or the body does not parse. *)
Definition api_call_fails (r : Gallery.FetchResult) : bool :=
  match r with
  | Gallery.NetworkError => true
  | Gallery.Responded code payload =>
      negb ((200 <=? code) && (code <=? 299))
      || match payload with None => true | Some _ => false end
  end.

(** Every ampersand of [s] starts one of the four character references
    the serialiser writes. *)
Fixpoint amps_are_references (s : string) : bool :=
  match s with
  | EmptyString => true
  | String c r =>
      (if Ascii.eqb c "&"
       then Str.startsWith s "&amp;" || Str.startsWith s "&lt;"
            || Str.startsWith s "&gt;" || Str.startsWith s "&nbsp;"
       else true)
      && amps_are_references r
  end.

(** Records in descending order of [created]. *)
Definition newest_first (a b : Store.ImageRecord) : Prop :=
  (Store.created b <= Store.created a)%N.

End Ref.

(** ** The readiness probe

    The delayed probe of the server asks the store for one record of
    [images] and only writes to the console. A computation yields its
    console lines and the exception that escapes it, if any. *)

Module Setup.

Inductive Level : Type := Log | Warn | Error.

(** One console call: its level and its arguments. *)
Record Line : Type := MkLine { level : Level; args : list string }.

Definition Outcome : Type := (list Line * option Js.Error)%type.

(** [try { body } catch (error) { handler(error) }] *)
Definition try_catch (body : Outcome) (handler : Js.Error -> Outcome)
  : Outcome :=
  match body with
  | (lines, None) => (lines, None)
  | (lines, Some error) =>
      let (more, escaped) := handler error in (lines ++ more, escaped)
  end.

(** The callback given to [setTimeout] in the server; [answer] is the
    rejection of [getFullList({ limit: 1 })], [None] when it resolves. *)
Definition readiness_probe (answer : option Js.Error) : Outcome :=
  try_catch
    match answer with
    | None => ([MkLine Log ["PocketBase images collection is ready"%string]], None)
    | Some error => ([], Some error)
    end
    (fun error =>
       ([MkLine Warn ["PocketBase collection not ready yet:"%string;
                      Js.err_message error]], None)).

End Setup.

(** ** Further reference descriptions *)

Module Derived.

(** Number of occurrences of a character. *)
Definition count_char (c : ascii) (s : string) : nat :=
  count_occ ascii_dec (Str.chars s) c.

(** The text named by a character reference. *)
Definition reference (name : string) : string :=
  if String.eqb name "amp" then "&"
  else if String.eqb name "lt" then "<"
  else if String.eqb name "gt" then ">"
  else if String.eqb name "nbsp"
  then String "194"%char (String "160"%char EmptyString)
  else "&" +:+ name +:+ ";".

(** Reading markup text back: each reference [&name;] is replaced by
    the text it names; [pending] holds the name being read. *)
Fixpoint decode_references (pending : option string) (s : string) : string :=
  match s with
  | EmptyString =>
      match pending with
      | None => EmptyString
      | Some name => "&" +:+ name
      end
  | String c r =>
      match pending with
      | None =>
          if Ascii.eqb c "&" then decode_references (Some EmptyString) r
          else String c (decode_references None r)
      | Some name =>
          if Ascii.eqb c ";" then reference name +:+ decode_references None r
          else decode_references (Some (name +:+ String c EmptyString)) r
      end
  end.

(** The extension of a file name, said without the loop of
    [path.extname]: drop the slashes that end the name, keep what
    follows the last remaining slash, and of that component take the
    last dot and what follows it, unless nothing stands before that dot
    or the component is [".."]. *)
Fixpoint drop_slashes (l : list ascii) : list ascii :=
  match l with
  | [] => []
  | c :: r => if Ascii.eqb c "/" then drop_slashes r else l
  end.

Fixpoint up_to_slash (l : list ascii) : list ascii :=
  match l with
  | [] => []
  | c :: r => if Ascii.eqb c "/" then [] else c :: up_to_slash r
  end.

Definition last_component (name : list ascii) : list ascii :=
  rev (up_to_slash (drop_slashes (rev name))).

Definition extension (name : string) : string :=
  Str.of_chars (Ref.ext_of_component (last_component (Str.chars name))).

(** The name the storage engine gives to the part of a request. *)
Definition stored_name (e : Server.Env) (part : Server.Part) : string :=
  Storage.filename (Server.now e) (Server.salt e) (Server.originalname part).

(** The storage engine can create the file of the part: the generated
    name holds no NUL character and the file system takes the file. *)
Definition writable (e : Server.Env) (part : Server.Part) : Prop :=
  Str.contains "000" (stored_name e part) = false
  /\ Server.disk_reply (Server.runtime e) = Server.Written.

(** The body is within the size limit for the installed release: below
    10 MiB, or exactly 10 MiB where that is not refused. *)
Definition within_limit (e : Server.Env) (part : Server.Part) : Prop :=
  (Server.size part < 10 * 1024 * 1024)%N
  \/ (Server.size part = (10 * 1024 * 1024)%N
      /\ Server.refuses_at_limit (Server.runtime e) = false).

(** multer stores the part and hands it to the route: the part has a
    file name, comes in the [image] field, declares an allowed type, is
    within the size limit, and its file can be created. *)
Definition storable (e : Server.Env) (part : Server.Part) : Prop :=
  Server.originalname part <> EmptyString
  /\ Server.fieldname part = "image"%string
  /\ Ref.allowed_mime (Server.mimetype part)
  /\ within_limit e part
  /\ writable e part.

(** The request carries a part that multer stores and the store accepts
    the record. *)
Definition accepted (e : Server.Env) (req : Server.Request) : Prop :=
  exists part new_id stamp,
    Server.req_part req = Some part
    /\ storable e part
    /\ Server.create_reply e = Store.Assigned new_id stamp.

(** The record the store returns for the part of a request. *)
Definition created_record (e : Server.Env) (part : Server.Part)
    (new_id : string) (stamp : N) : Store.ImageRecord :=
  {| Store.id := new_id; Store.name := Server.originalname part;
     Store.location := "/uploads/" +:+ stored_name e part;
     Store.mime_type := Server.mimetype part;
     Store.created := stamp; Store.updated := stamp |}.

(** Every record's location names a file of the upload directory. *)
Definition resolves (w : Server.World) : Prop :=
  Forall (fun r =>
            exists f, Store.location r = "/uploads/" +:+ f
                      /\ is_Some (Server.files (Server.fs w) !! f))
         (Server.collection w).

(** The fields of a record as the JSON object sent to the client. *)
Definition record_fields (r : Store.ImageRecord) : Js.Json :=
  Js.JObj [("id", Js.JStr (Store.id r)); ("name", Js.JStr (Store.name r));
           ("location", Js.JStr (Store.location r));
           ("mime_type", Js.JStr (Store.mime_type r));
           ("created", Js.JNum (Z.of_N (Store.created r)));
           ("updated", Js.JNum (Z.of_N (Store.updated r)))]%string.

(** What the gallery container holds after [loadImages], when the page
    has one. *)
Definition gallery_content (formatDate : N -> string)
    (r : Gallery.FetchResult) : string :=
  match Gallery.fetched r with
  | None => Gallery.error_markup
  | Some [] => Gallery.empty_markup
  | Some images => Str.join (map (Gallery.card formatDate) images)
  end.

(** The markup of a card up to the value of its [src] attribute. *)
Definition card_head : string :=
  Gallery.nl +:+ "      <div class=" +:+ Str.dq +:+ "image-card" +:+ Str.dq
  +:+ ">" +:+ Gallery.nl +:+ "        <img src=" +:+ Str.dq.

(** A runtime for the examples: a release that refuses a body of
    exactly the limit, on a disk that takes the file. *)
Definition sample_runtime : Server.Runtime :=
  {| Server.refuses_at_limit := true;
     Server.unexpected_field_text := "Unexpected field";
     Server.disk_reply := Server.Written;
     Server.spilled := 10485760;
     Server.path_error_text :=
       "The argument 'path' must be a string, Uint8Array, or URL without null bytes." |}.

End Derived.

Example extname_samples :
  Path.extname "cat.png" = ".png"%string /\
  Path.extname "archive.tar.gz" = ".gz"%string /\
  Path.extname ".bashrc" = EmptyString /\
  Path.extname "dir/.." = EmptyString /\
  Path.extname "a.b/" = ".b"%string /\
  Path.extname "..." = "."%string /\
  Path.extname "x.png/y" = EmptyString /\
  Storage.filename 1763578360378 911074405 "photo.jpeg"
    = "1763578360378-911074405.jpeg"%string.
Proof. repeat split; vm_compute; reflexivity. Qed.

(** A request without a file part, and one whose part has no file name,
    reach the handler and are answered 400; a part in another field is
    answered 500; a part whose generated name holds a NUL character is
    answered 500 and leaves no record. *)
Example upload_samples :
  let e := {| Server.now := 1763578360378; Server.salt := 911074405;
              Server.create_reply := Store.Assigned "r1" 1763578360400;
              Server.runtime := Derived.sample_runtime |} in
  let w := {| Server.fs := {| Server.files := ∅; Server.written := 0 |};
              Server.collection := [] |} in
  Server.post_upload e {| Server.req_part := None |} w
  = (w, Server.json 400 (Js.JObj [("error", Js.JStr "No file uploaded")]%string))
  /\ Server.status
       (snd (Server.post_upload e
               {| Server.req_part :=
                    Some {| Server.fieldname := "image";
                            Server.originalname := EmptyString;
                            Server.mimetype := "application/octet-stream";
                            Server.size := 0 |} |} w)) = 400
  /\ Server.status
       (snd (Server.post_upload e
               {| Server.req_part :=
                    Some {| Server.fieldname := "photo";
                            Server.originalname := "cat.png";
                            Server.mimetype := "image/png";
                            Server.size := 10 |} |} w)) = 500
  /\ Server.post_upload e
       {| Server.req_part :=
            Some {| Server.fieldname := "image";
                    Server.originalname :=
                      String "a" (String "." (String "000" "png"));
                    Server.mimetype := "image/png";
                    Server.size := 10 |} |} w
     = (w, {| Server.status := 500; Server.body := Server.ErrorPage |}).
Proof. cbv zeta. repeat split; vm_compute; reflexivity. Qed.

(** An empty listing shows the placeholder; a page without a gallery
    container is left alone. *)
Example gallery_samples :
  Gallery.loadImages (fun _ => EmptyString) (Gallery.Responded 200 (Some []))
    (<["gallery"%string := EmptyString]> ∅)
  = <["gallery"%string := "<p>No images uploaded yet.</p>"%string]> ∅
  /\ Gallery.loadImages (fun _ => EmptyString) Gallery.NetworkError ∅ = ∅.
Proof.
  split.
  - unfold Gallery.loadImages, Gallery.displayImages. cbn [Gallery.fetched Gallery.ok].
    rewrite lookup_insert_eq. cbn. apply insert_insert_eq.
  - reflexivity.
Qed.

(** ** Facts about [path.extname] *)

Section ExtnameFacts.

Import Path Ref.

Lemma run_cons c rest s :
  run (c :: rest) s =
  match body (Z.of_nat (length rest)) c s with
  | Continue s' => run rest s'
  | Break s' => s'
  end.
Proof.
  unfold run. cbn [loop length].
  replace (Z.of_nat (S (length rest)) - 1) with (Z.of_nat (length rest)) by lia.
  reflexivity.
Qed.

Lemma body_separator i s :
  body i CHAR_FORWARD_SLASH s =
  if matchedSlash s then Continue s
  else Break {| startDot := startDot s; startPart := i + 1;
                end_ := end_ s; matchedSlash := matchedSlash s;
                preDotState := preDotState s |}.
Proof. unfold body. cbn. destruct (matchedSlash s); reflexivity. Qed.

Lemma body_other i c s :
  not_slash c -> body i c s = Continue (dot_logic i c (mark_end i s)).
Proof.
  intros H. unfold body.
  destruct (Ascii.eqb_spec c CHAR_FORWARD_SLASH); [contradiction | reflexivity].
Qed.

Lemma mark_end_set i s : end_ s <> -1 -> mark_end i s = s.
Proof. intros H. unfold mark_end. apply Z.eqb_neq in H. now rewrite H. Qed.

Lemma run_slashes sl rest s :
  matchedSlash s = true -> Forall is_slash sl ->
  run (sl ++ rest) s = run rest s.
Proof.
  intros Hm Hs. induction Hs as [|c sl Hc _ IH]; [reflexivity|].
  cbn [app]. rewrite run_cons. red in Hc. subst c.
  rewrite body_separator, Hm. exact IH.
Qed.

Lemma run_plain w rest s :
  startDot s = -1 -> end_ s <> -1 -> Forall plain w ->
  run (w ++ rest) s = run rest s.
Proof.
  intros Hd He Hw. induction Hw as [|c w [Hc1 Hc2] _ IH]; [reflexivity|].
  cbn [app]. rewrite run_cons, body_other by assumption.
  rewrite mark_end_set by assumption. unfold dot_logic.
  destruct (Ascii.eqb_spec c CHAR_DOT); [contradiction|].
  rewrite Hd. cbn. exact IH.
Qed.

Lemma run_before_dot a rest s :
  startDot s <> -1 -> end_ s <> -1 -> Forall not_slash a ->
  run (a ++ rest) s = run rest (with_pds s (pds a (preDotState s))).
Proof.
  intros Hd He Ha. revert s Hd He.
  induction Ha as [|c a Hc _ IH]; intros s Hd He.
  - destruct s; reflexivity.
  - cbn [app]. rewrite run_cons, body_other by assumption.
    rewrite mark_end_set by assumption. unfold dot_logic.
    apply Z.eqb_neq in Hd as Hd'. rewrite Hd'. cbn [negb pds].
    destruct (Ascii.eqb c CHAR_DOT).
    + destruct (preDotState s =? 1) eqn:E; cbn [negb].
      * apply Z.eqb_eq in E. rewrite IH by assumption.
        destruct s; cbn in *; subst; reflexivity.
      * rewrite IH by assumption. destruct s; reflexivity.
    + rewrite IH by assumption. destruct s; reflexivity.
Qed.

Lemma pds_last l c d :
  pds (l ++ [c]) d = if Ascii.eqb c CHAR_DOT then 1 else -1.
Proof. revert d. induction l as [|x l IH]; intros d; cbn; [reflexivity | apply IH]. Qed.

Lemma pds_rev a d :
  pds (rev a) d =
  match a with
  | [] => d
  | c :: _ => if Ascii.eqb c CHAR_DOT then 1 else -1
  end.
Proof. destruct a as [|c a]; [reflexivity|]. cbn [rev]. apply pds_last. Qed.

Lemma run_mark c rest s :
  not_slash c ->
  run (c :: rest) s = run (c :: rest) (mark_end (Z.of_nat (length rest)) s).
Proof.
  intros Hc. rewrite !run_cons, !body_other by assumption.
  f_equal. f_equal. unfold mark_end at 2.
  destruct (end_ s =? -1) eqn:E.
  - unfold mark_end. rewrite E. cbn.
    destruct (Z.eqb_spec (Z.of_nat (length rest) + 1) (-1)); [lia | reflexivity].
  - unfold mark_end. rewrite E. now rewrite E.
Qed.

Lemma run_tail pre s :
  matchedSlash s = false -> boundary pre ->
  run (rev pre) s =
  {| startDot := startDot s;
     startPart := match pre with [] => startPart s | _ => Z.of_nat (length pre) end;
     end_ := end_ s; matchedSlash := false; preDotState := preDotState s |}.
Proof.
  intros Hm [-> | [pre' ->]].
  - destruct s; cbn in *; subst; reflexivity.
  - rewrite rev_app_distr. cbn [rev app]. rewrite run_cons, body_separator, Hm.
    rewrite length_rev. f_equal.
    destruct pre'; cbn [app length]; rewrite ?length_app; cbn [length]; lia.
Qed.

Lemma split_last_dot_none l : split_last_dot l = None -> Forall not_dot l.
Proof.
  induction l as [|c l IH]; cbn; [constructor|].
  destruct (split_last_dot l) as [[a w]|]; [discriminate|].
  destruct (Ascii.eqb_spec c CHAR_DOT); [discriminate|].
  intros _. constructor; auto.
Qed.

Lemma split_last_dot_some l a w :
  split_last_dot l = Some (a, w) -> l = a ++ CHAR_DOT :: w /\ Forall not_dot w.
Proof.
  revert a. induction l as [|c l IH]; cbn; intros a; [discriminate|].
  destruct (split_last_dot l) as [[a' w']|] eqn:E.
  - intros [= <- <-]. destruct (IH a' eq_refl) as [-> Hw]. split; auto.
  - destruct (Ascii.eqb_spec c CHAR_DOT) as [->|]; [|discriminate].
    intros [= <- <-]. split; [reflexivity|]. now apply split_last_dot_none.
Qed.

Lemma split_last_dot_plain l : Forall not_dot l -> split_last_dot l = None.
Proof.
  induction 1 as [|c l Hc _ IH]; cbn; [reflexivity|]. rewrite IH.
  destruct (Ascii.eqb_spec c CHAR_DOT); [contradiction | reflexivity].
Qed.

Lemma split_last_dot_app u w :
  Forall not_dot w -> split_last_dot (u ++ CHAR_DOT :: w) = Some (u, w).
Proof.
  intros Hw. induction u as [|c u IH]; cbn.
  - now rewrite (split_last_dot_plain w Hw).
  - now rewrite IH.
Qed.

Lemma slice_middle (u v t : list ascii) :
  Str.slice (u ++ v ++ t) (Z.of_nat (length u))
            (Z.of_nat (length u) + Z.of_nat (length v)) = v.
Proof.
  unfold Str.slice, Str.clamp. rewrite !length_app.
  destruct (Z.ltb_spec (Z.of_nat (length u)) 0); [lia|].
  destruct (Z.ltb_spec (Z.of_nat (length u) + Z.of_nat (length v)) 0); [lia|].
  rewrite !Z.min_l by lia.
  replace (Z.to_nat (Z.max _ 0)) with (length v) by lia.
  rewrite Nat2Z.id, drop_app_length. apply take_app_length.
Qed.

(** The loop on a path whose last component has no dot never records
    one. *)
Lemma run_dotless pre comp sl :
  boundary pre -> comp <> [] -> Forall plain comp -> Forall is_slash sl ->
  startDot (run (rev (pre ++ comp ++ sl)) scan0) = -1.
Proof.
  intros Hb Hne Hc Hs.
  rewrite !rev_app_distr, <- app_assoc.
  rewrite run_slashes; [|reflexivity | now apply Forall_rev].
  assert (Hrc : Forall plain (rev comp)) by now apply Forall_rev.
  destruct (rev comp) as [|c rc] eqn:E.
  { apply (f_equal (@rev ascii)) in E. rewrite rev_involutive in E. contradiction. }
  cbn [app]. rewrite run_mark by (inversion Hrc; subst; firstorder).
  change (c :: rc ++ rev pre) with ((c :: rc) ++ rev pre).
  rewrite run_plain; [| reflexivity | cbn; lia | assumption].
  rewrite run_tail; [reflexivity | reflexivity | assumption].
Qed.

(** The loop on a path whose last component is [a ++ "." ++ w], with no
    dot in [w]. *)
Lemma run_dotted pre a w sl :
  boundary pre -> Forall not_slash a -> Forall plain w -> Forall is_slash sl ->
  run (rev (pre ++ (a ++ CHAR_DOT :: w) ++ sl)) scan0 =
  {| startDot := Z.of_nat (length pre) + Z.of_nat (length a);
     startPart := match pre with [] => 0 | _ => Z.of_nat (length pre) end;
     end_ := Z.of_nat (length pre) + Z.of_nat (length a) + 1 + Z.of_nat (length w);
     matchedSlash := false;
     preDotState := pds (rev a) 0 |}.
Proof.
  intros Hb Ha Hw Hs.
  rewrite !rev_app_distr. cbn [rev]. rewrite <- !app_assoc. cbn [app].
  rewrite run_slashes; [|reflexivity | now apply Forall_rev].
  assert (Hrw : Forall plain (rev w)) by now apply Forall_rev.
  assert (Hra : Forall not_slash (rev a)) by now apply Forall_rev.
  assert (Hdot : not_slash CHAR_DOT) by discriminate.
  set (R := rev a ++ rev pre).
  assert (HR : length R = (length a + length pre)%nat)
    by (unfold R; rewrite length_app, !length_rev; reflexivity).
  assert (Hrun : run (rev w ++ CHAR_DOT :: R) scan0 =
                 run (CHAR_DOT :: R)
                     {| startDot := -1; startPart := 0;
                        end_ := Z.of_nat (length (rev w ++ CHAR_DOT :: R));
                        matchedSlash := false; preDotState := 0 |}).
  { destruct (rev w) as [|c rw] eqn:E.
    - cbn [app]. rewrite run_mark by assumption. f_equal.
      unfold mark_end, scan0. cbn. f_equal. lia.
    - cbn [app]. rewrite run_mark by (inversion Hrw; subst; firstorder).
      change (c :: rw ++ CHAR_DOT :: R) with ((c :: rw) ++ CHAR_DOT :: R).
      rewrite run_plain; [| reflexivity | cbn; lia | assumption].
      f_equal. unfold mark_end, scan0. cbn. f_equal. lia. }
  rewrite Hrun. rewrite run_cons, body_other by assumption.
  rewrite mark_end_set by (cbn; lia).
  unfold dot_logic. cbn [startDot Z.eqb Ascii.eqb CHAR_DOT].
  replace (Ascii.eqb CHAR_DOT CHAR_DOT) with true by reflexivity. cbn.
  unfold R. rewrite run_before_dot by (cbn; first [lia | assumption]).
  rewrite run_tail; [| reflexivity | assumption].
  unfold with_pds. cbn [startDot startPart end_ matchedSlash preDotState].
  f_equal; rewrite ?length_app, ?length_rev; cbn [length];
    rewrite ?length_app, ?length_rev; lia.
Qed.

(** [path.extname] computes the extension of the last path component:
    what follows its last dot, unless nothing stands before that dot or
    the component is [".."]. *)
Lemma extname_chars_component pre comp sl :
  boundary pre -> comp <> [] -> Forall not_slash comp -> Forall is_slash sl ->
  extname_chars (pre ++ comp ++ sl) = ext_of_component comp.
Proof.
  intros Hb Hne Hc Hs. unfold extname_chars, ext_of_component.
  replace (loop (rev (pre ++ comp ++ sl))
                (Z.of_nat (length (pre ++ comp ++ sl)) - 1) scan0)
    with (run (rev (pre ++ comp ++ sl)) scan0)
    by (unfold run; now rewrite length_rev).
  destruct (split_last_dot comp) as [[a w]|] eqn:E.
  - apply split_last_dot_some in E as [-> Hw].
    apply Forall_app in Hc as [Ha Hc]. inversion Hc as [|? ? _ Hw']; subst.
    assert (Hpw : Forall plain w).
    { rewrite Forall_forall in *. split; auto. }
    rewrite run_dotted by assumption.
    cbn [startDot startPart end_ matchedSlash preDotState].
    rewrite pds_rev.
    destruct (Z.eqb_spec (Z.of_nat (length pre) + Z.of_nat (length a)) (-1)); [lia|].
    destruct (Z.eqb_spec (Z.of_nat (length pre) + Z.of_nat (length a) + 1
                          + Z.of_nat (length w)) (-1)); [lia|].
    cbn [orb].
    assert (Hslice :
      Str.slice (pre ++ (a ++ CHAR_DOT :: w) ++ sl)
        (Z.of_nat (length pre) + Z.of_nat (length a))
        (Z.of_nat (length pre) + Z.of_nat (length a) + 1 + Z.of_nat (length w))
      = CHAR_DOT :: w).
    { replace (pre ++ (a ++ CHAR_DOT :: w) ++ sl)
        with ((pre ++ a) ++ (CHAR_DOT :: w) ++ sl)
        by (rewrite <- !app_assoc; reflexivity).
      replace (Z.of_nat (length pre) + Z.of_nat (length a))
        with (Z.of_nat (length (pre ++ a))) by (rewrite length_app; lia).
      replace (Z.of_nat (length (pre ++ a)) + 1 + Z.of_nat (length w))
        with (Z.of_nat (length (pre ++ a)) + Z.of_nat (length (CHAR_DOT :: w)))
        by (cbn [length]; lia).
      apply slice_middle. }
    rewrite Hslice. clear Hslice.
    destruct a as [|c a']; [reflexivity|].
    assert (Hst : (Z.of_nat (length pre) + Z.of_nat (length (c :: a'))
                   =? match pre with [] => 0 | _ => Z.of_nat (length pre) end + 1)
                  = match a' with [] => true | _ => false end).
    { destruct a'; destruct pre; cbn [length];
        first [apply Z.eqb_eq | apply Z.eqb_neq]; lia. }
    rewrite Hst. clear Hst.
    assert (Hen : (Z.of_nat (length pre) + Z.of_nat (length (c :: a'))
                   =? Z.of_nat (length pre) + Z.of_nat (length (c :: a')) + 1
                      + Z.of_nat (length w) - 1)
                  = match w with [] => true | _ => false end).
    { destruct w; cbn [length]; first [apply Z.eqb_eq | apply Z.eqb_neq]; lia. }
    rewrite Hen. clear Hen.
    destruct (Ascii.eqb c CHAR_DOT); destruct a', w; reflexivity.
  - apply split_last_dot_none in E.
    assert (Hp : Forall plain comp).
    { rewrite Forall_forall in *. split; auto. }
    rewrite run_dotless by assumption. reflexivity.
Qed.

Lemma loop_keeps_startDot codes i s :
  Forall not_dot codes -> startDot (loop codes i s) = startDot s.
Proof.
  intros H. revert i s. induction H as [|c codes Hc _ IH]; intros i s; [reflexivity|].
  cbn [loop]. unfold body.
  destruct (Ascii.eqb c CHAR_FORWARD_SLASH).
  - destruct (matchedSlash s); cbn [negb]; [apply IH | reflexivity].
  - rewrite IH. unfold dot_logic.
    destruct (Ascii.eqb_spec c CHAR_DOT); [contradiction|].
    unfold mark_end.
    destruct (end_ s =? -1); cbn [startDot];
      destruct (startDot s =? -1); reflexivity.
Qed.

Lemma extname_chars_separators p : Forall is_slash p -> extname_chars p = [].
Proof.
  intros H. unfold extname_chars.
  rewrite loop_keeps_startDot; [reflexivity|].
  apply Forall_rev. eapply Forall_impl; [exact H|].
  intros c ->. discriminate.
Qed.

(** Every path is a run of separators, or ends in a non-empty component
    followed by separators. *)
Lemma path_components p :
  Forall is_slash p \/
  exists pre comp sl,
    p = pre ++ comp ++ sl /\ boundary pre /\ comp <> [] /\
    Forall not_slash comp /\ Forall is_slash sl.
Proof.
  induction p as [|c p IH]; [left; constructor|].
  destruct (Ascii.eqb_spec c CHAR_FORWARD_SLASH) as [->|Hc].
  - destruct IH as [H | (pre & comp & sl & -> & Hb & Hne & Hcomp & Hsl)].
    + left. constructor; [reflexivity | assumption].
    + right. exists (CHAR_FORWARD_SLASH :: pre), comp, sl.
      repeat split; try assumption.
      destruct Hb as [-> | [pre' ->]]; right;
        [exists [] | exists (CHAR_FORWARD_SLASH :: pre')]; reflexivity.
  - right. destruct IH as [H | (pre & comp & sl & -> & Hb & Hne & Hcomp & Hsl)].
    + exists [], [c], p. repeat split; try assumption.
      * now left.
      * discriminate.
      * constructor; [exact Hc | constructor].
    + destruct Hb as [-> | [pre' ->]].
      * exists [], (c :: comp), sl. repeat split; try assumption.
        -- now left.
        -- discriminate.
        -- constructor; assumption.
      * exists (c :: pre' ++ [CHAR_FORWARD_SLASH]), comp, sl.
        repeat split; try assumption. right. now exists (c :: pre').
Qed.

Lemma ext_of_component_shape comp :
  Forall not_slash comp ->
  ext_of_component comp = [] \/
  exists w, ext_of_component comp = CHAR_DOT :: w /\ Forall plain w.
Proof.
  intros Hc. unfold ext_of_component.
  destruct (split_last_dot comp) as [[a w]|] eqn:E; [|now left].
  apply split_last_dot_some in E as [-> Hw].
  apply Forall_app in Hc as [_ Hc]. inversion Hc as [|? ? _ Hw']; subst.
  assert (Hpw : Forall plain w) by (rewrite Forall_forall in *; split; auto).
  destruct a as [|c [|c' a]]; [now left | | right; eauto].
  destruct w as [|x w]; [|right; eauto].
  destruct (Ascii.eqb c CHAR_DOT); [now left | right; eauto].
Qed.

(** The extension is empty, or a dot followed by characters that are
    neither dots nor separators. *)
Lemma extname_chars_shape p :
  extname_chars p = [] \/
  exists w, extname_chars p = CHAR_DOT :: w /\ Forall plain w.
Proof.
  destruct (path_components p)
    as [H | (pre & comp & sl & -> & Hb & Hne & Hcomp & Hsl)].
  - left. now apply extname_chars_separators.
  - rewrite extname_chars_component by assumption.
    now apply ext_of_component_shape.
Qed.

(** A dot-free, separator-free stem followed by an extension has that
    extension. *)
Lemma extname_chars_stem u e :
  u <> [] -> Forall plain u ->
  e = [] \/ (exists w, e = CHAR_DOT :: w /\ Forall plain w) ->
  extname_chars (u ++ e) = e.
Proof.
  intros Hu Hp He.
  assert (Hns : Forall not_slash (u ++ e)).
  { apply Forall_app. split.
    - eapply Forall_impl; [exact Hp | intros c [H _]; exact H].
    - destruct He as [-> | (w & -> & Hw)]; [constructor|].
      constructor; [discriminate|].
      eapply Forall_impl; [exact Hw | intros c [H _]; exact H]. }
  assert (Hne : u ++ e <> []) by (destruct u; [contradiction | discriminate]).
  pose proof (extname_chars_component [] (u ++ e) [] (or_introl eq_refl)
                Hne Hns (List.Forall_nil _)) as H.
  rewrite app_nil_r in H. cbn [app] in H. rewrite H.
  unfold ext_of_component.
  destruct He as [-> | (w & -> & Hw)].
  - rewrite app_nil_r, split_last_dot_plain; [reflexivity|].
    eapply Forall_impl; [exact Hp | intros c [_ Hd]; exact Hd].
  - rewrite split_last_dot_app
      by (eapply Forall_impl; [exact Hw | intros c [_ Hd]; exact Hd]).
    destruct u as [|c [|c' u]]; [contradiction | | reflexivity].
    destruct w; [|reflexivity].
    inversion Hp as [|? ? [_ Hd] _]; subst.
    destruct (Ascii.eqb_spec c CHAR_DOT); [contradiction | reflexivity].
Qed.

End ExtnameFacts.

(** ** Facts about strings and decimal numerals *)

Section StringFacts.

Import Ref.

Lemma append_cons c (a b : string) : String c a +:+ b = String c (a +:+ b).
Proof. reflexivity. Qed.

Lemma append_nil_l (b : string) : EmptyString +:+ b = b.
Proof. reflexivity. Qed.

Lemma chars_append a b : Str.chars (a +:+ b) = Str.chars a ++ Str.chars b.
Proof.
  unfold Str.chars. induction a as [|c a IH]; [reflexivity|].
  rewrite append_cons. cbn. now f_equal.
Qed.

Lemma chars_of_chars l : Str.chars (Str.of_chars l) = l.
Proof. apply list_ascii_of_string_of_list_ascii. Qed.

Lemma of_chars_chars s : Str.of_chars (Str.chars s) = s.
Proof. apply string_of_list_ascii_of_string. Qed.

Lemma append_assoc (a b c : string) : (a +:+ b) +:+ c = a +:+ (b +:+ c).
Proof.
  induction a as [|x a IH]; [reflexivity|].
  rewrite !append_cons. now rewrite IH.
Qed.

Lemma digit_plain c : is_digit c = true -> plain c.
Proof.
  intros H. split; intros ->; cbn in H; discriminate.
Qed.

Lemma string_of_uint_digits u :
  Forall (fun c => is_digit c = true) (Str.chars (NilEmpty.string_of_uint u)).
Proof. induction u; cbn; constructor; auto. Qed.

Lemma dec_digits n : Forall (fun c => is_digit c = true) (Str.chars (Str.dec n)).
Proof. apply string_of_uint_digits. Qed.

Lemma dec_head n :
  exists d rest, Str.dec n = String d rest /\ is_digit d = true.
Proof.
  unfold Str.dec.
  assert (H : N.to_uint n <> Decimal.Nil).
  { destruct n as [|p]; [discriminate | apply DecimalPos.Unsigned.to_uint_nonnil]. }
  destruct (N.to_uint n); [contradiction | ..]; cbn; eauto.
Qed.

Lemma dec_parse n : parse_dec (Str.dec n) = Some n.
Proof.
  unfold parse_dec, Str.dec. rewrite NilEmpty.usu. cbn.
  now rewrite DecimalN.Unsigned.of_to.
Qed.

Lemma forallb_digits n : forallb is_digit (Str.chars (Str.dec n)) = true.
Proof.
  apply forallb_forall. intros c Hc.
  pose proof (dec_digits n) as H. rewrite Forall_forall in H.
  apply H. now apply list_elem_of_In.
Qed.

(** The characters of the unique suffix: digits and one hyphen. *)
Lemma uniqueSuffix_plain now salt :
  Str.chars (Storage.uniqueSuffix now salt) <> [] /\
  Forall plain (Str.chars (Storage.uniqueSuffix now salt)).
Proof.
  unfold Storage.uniqueSuffix. rewrite !chars_append. split.
  - destruct (dec_head now) as (d & rest & -> & _). discriminate.
  - rewrite !Forall_app. repeat split.
    + eapply Forall_impl; [apply dec_digits | apply digit_plain].
    + cbn. constructor; [split; discriminate | constructor].
    + eapply Forall_impl; [apply dec_digits | apply digit_plain].
Qed.

Lemma filename_chars now salt originalname :
  Str.chars (Storage.filename now salt originalname) =
  Str.chars (Storage.uniqueSuffix now salt)
  ++ Path.extname_chars (Str.chars originalname).
Proof.
  unfold Storage.filename, Path.extname.
  now rewrite chars_append, chars_of_chars.
Qed.

End StringFacts.

(** ** Filename Generator *)

Section ExtensionFacts.

Import Path Ref Derived.

Lemma drop_slashes_app sl rest :
  Forall is_slash sl -> drop_slashes (sl ++ rest) = drop_slashes rest.
Proof.
  induction 1 as [|c sl Hc _ IH]; [reflexivity|].
  red in Hc. subst c. exact IH.
Qed.

Lemma drop_slashes_head c r : not_slash c -> drop_slashes (c :: r) = c :: r.
Proof.
  intros H. cbn [drop_slashes].
  destruct (Ascii.eqb_spec c "/"); [contradiction | reflexivity].
Qed.

Lemma up_to_slash_app comp rest :
  Forall not_slash comp -> up_to_slash (comp ++ rest) = comp ++ up_to_slash rest.
Proof.
  induction 1 as [|c comp Hc _ IH]; [reflexivity|].
  cbn [app up_to_slash].
  destruct (Ascii.eqb_spec c "/"); [contradiction | now rewrite IH].
Qed.

Lemma last_component_found pre comp sl :
  boundary pre -> comp <> [] -> Forall not_slash comp -> Forall is_slash sl ->
  last_component (pre ++ comp ++ sl) = comp.
Proof.
  intros Hb Hne Hc Hs. unfold last_component.
  rewrite !rev_app_distr, <- app_assoc.
  rewrite drop_slashes_app by now apply Forall_rev.
  assert (Hrc : Forall not_slash (rev comp)) by now apply Forall_rev.
  destruct (rev comp) as [|c rc] eqn:E.
  { apply (f_equal (@rev ascii)) in E. rewrite rev_involutive in E. contradiction. }
  cbn [app]. rewrite drop_slashes_head by (inversion Hrc; assumption).
  change (c :: rc ++ rev pre) with ((c :: rc) ++ rev pre).
  rewrite up_to_slash_app by assumption.
  assert (Ht : up_to_slash (rev pre) = []).
  { destruct Hb as [-> | [pre' ->]]; [reflexivity|].
    rewrite rev_app_distr. reflexivity. }
  rewrite Ht, app_nil_r, <- E. apply rev_involutive.
Qed.

Lemma last_component_separators p :
  Forall is_slash p -> last_component p = [].
Proof.
  intros H. unfold last_component.
  rewrite <- (app_nil_r (rev p)), drop_slashes_app by now apply Forall_rev.
  reflexivity.
Qed.

(** The loop of [path.extname] computes the extension as described. *)
Lemma extname_is_extension name : extname name = extension name.
Proof.
  unfold extname, extension. f_equal.
  destruct (path_components (Str.chars name))
    as [H | (pre & comp & sl & -> & Hb & Hne & Hcomp & Hsl)].
  - rewrite extname_chars_separators, last_component_separators by assumption.
    reflexivity.
  - rewrite extname_chars_component, last_component_found by assumption.
    reflexivity.
Qed.

End ExtensionFacts.

(** C5. For every original filename the storage filename is the decimal
    millisecond timestamp, a hyphen, the decimal random integer and the
    extension of the original name, that is the last dot of its last
    path component with what follows it; both numerals read back as the
    numbers, and the extension of the storage filename is the extension
    of the original one. *)
Theorem filename_concatenates_and_keeps_extension
    (now salt : N) (originalname : string) :
  Storage.filename now salt originalname
  = Str.dec now +:+ "-" +:+ Str.dec salt +:+ Derived.extension originalname
  /\ Ref.parse_dec (Str.dec now) = Some now
  /\ Ref.parse_dec (Str.dec salt) = Some salt
  /\ forallb Ref.is_digit (Str.chars (Str.dec now +:+ Str.dec salt)) = true
  /\ Path.extname originalname = Derived.extension originalname
  /\ Derived.extension (Storage.filename now salt originalname)
     = Derived.extension originalname.
Proof.
  repeat split.
  - unfold Storage.filename, Storage.uniqueSuffix.
    now rewrite !append_assoc, extname_is_extension.
  - apply dec_parse.
  - apply dec_parse.
  - rewrite chars_append, forallb_app, !forallb_digits. reflexivity.
  - apply extname_is_extension.
  - rewrite <- !extname_is_extension.
    unfold Path.extname at 1. rewrite filename_chars.
    destruct (uniqueSuffix_plain now salt) as [Hne Hp].
    rewrite extname_chars_stem; [reflexivity | assumption | assumption |].
    apply extname_chars_shape.
Qed.

(** The extension is taken from the client's name as it stands: any
    dot-free, separator-free tail after a dot comes back unchanged. *)
Lemma extname_copies_client_characters (stem tail : string) :
  stem <> EmptyString ->
  Forall Ref.plain (Str.chars stem) -> Forall Ref.plain (Str.chars tail) ->
  Path.extname (stem +:+ "." +:+ tail) = "." +:+ tail.
Proof.
  intros Hs Hp Ht. unfold Path.extname. rewrite chars_append.
  rewrite extname_chars_stem.
  - apply of_chars_chars.
  - destruct stem; [contradiction | discriminate].
  - assumption.
  - right. exists (Str.chars tail). split; [|assumption].
    now rewrite chars_append.
Qed.

(** C6, as stated, fails: a client name whose extension holds a NUL
    character yields a storage filename holding that NUL. *)
Lemma filename_keeps_unsafe_character :
  Storage.filename 1763578360378 911074405
    (String "a" (String "." (String "000" "png")))
  = "1763578360378-911074405." +:+ String "000" "png"
  /\ Ref.path_safe
       (Storage.filename 1763578360378 911074405
          (String "a" (String "." (String "000" "png")))) = false.
Proof. split; vm_compute; reflexivity. Qed.

(** C6, amended. The storage filename never contains the path separator
    and starts with a digit, so it is never empty, ["."] or [".."]: it
    names an entry directly inside the upload directory. The extension
    of the client's name is appended to the unique suffix character for
    character: nothing is filtered out or replaced, and every character
    of that extension is a character of the storage filename. *)
Theorem filename_has_no_separator (now salt : N) (originalname : string) :
  Str.contains "/" (Storage.filename now salt originalname) = false
  /\ (exists d rest,
        Storage.filename now salt originalname = String d rest
        /\ Ref.is_digit d = true)
  /\ Storage.filename now salt originalname
     = Storage.uniqueSuffix now salt +:+ Derived.extension originalname
  /\ (forall c : ascii,
        In c (Str.chars (Derived.extension originalname)) ->
        Str.contains c (Storage.filename now salt originalname) = true).
Proof.
  split; [|split; [|split]].
  - unfold Str.contains. rewrite filename_chars.
    apply not_true_is_false. intros H.
    apply existsb_exists in H as (c & Hin & Hc).
    apply Ascii.eqb_eq in Hc. subst c.
    apply in_app_or in Hin as [Hin | Hin].
    + destruct (uniqueSuffix_plain now salt) as [_ Hp].
      rewrite Forall_forall in Hp.
      apply list_elem_of_In, Hp in Hin. now destruct Hin as [Hin _].
    + destruct (extname_chars_shape (Str.chars originalname))
        as [E | (w & E & Hw)]; rewrite E in Hin; [contradiction|].
      destruct Hin as [Hin | Hin]; [discriminate|].
      rewrite Forall_forall in Hw.
      apply list_elem_of_In, Hw in Hin. now destruct Hin as [Hin _].
  - unfold Storage.filename, Storage.uniqueSuffix.
    destruct (dec_head now) as (d & rest & -> & Hd).
    rewrite !append_cons. eauto.
  - unfold Storage.filename. now rewrite extname_is_extension.
  - intros c Hin. unfold Str.contains, Storage.filename.
    rewrite chars_append, extname_is_extension.
    apply existsb_exists. exists c. split.
    + apply in_or_app. now right.
    + apply Ascii.eqb_refl.
Qed.

Lemma filename_has_no_separator_witness :
  Str.contains "000"
    (Storage.filename 1763578360378 911074405
       (String "a" (String "." (String "000" "png")))) = true.
Proof.
  apply (proj2 (proj2 (proj2 (filename_has_no_separator
           1763578360378 911074405
           (String "a" (String "." (String "000" "png"))))))).
  vm_compute. right. left. reflexivity.
Defined.

(** ** Upload Filter and intake pipeline *)

Section UploadFacts.

Import Ref Server Derived.

Lemma includes_allowedTypes m :
  includes allowedTypes m = true <-> allowed_mime m.
Proof.
  unfold includes, allowedTypes, allowed_mime. cbn [existsb].
  rewrite !orb_true_iff, !String.eqb_eq. intuition discriminate.
Qed.

Lemma fileFilter_accepts part :
  allowed_mime (mimetype part) -> fileFilter part = (None, true).
Proof.
  intros H. apply includes_allowedTypes in H. unfold fileFilter. now rewrite H.
Qed.

Lemma fileFilter_rejects part :
  ~ allowed_mime (mimetype part) ->
  fileFilter part = (Some (Js.new_Error invalid_type_message), false).
Proof.
  intros H. unfold fileFilter.
  destruct (includes allowedTypes (mimetype part)) eqn:E; [|reflexivity].
  apply includes_allowedTypes in E. contradiction.
Qed.

Lemma write_refusal_none e part :
  write_refusal e (stored_name e part) = None <-> writable e part.
Proof.
  unfold write_refusal, writable.
  destruct (Str.contains "000" (stored_name e part)).
  - split; [discriminate | intros [H _]; discriminate].
  - destruct (disk_reply (runtime e)); split; try discriminate; auto.
    intros [_ H]. discriminate.
Qed.

Lemma write_refusal_status e fname err :
  write_refusal e fname = Some err -> Js.err_status err = None.
Proof.
  unfold write_refusal. destruct (Str.contains "000" fname).
  - intros [= <-]. reflexivity.
  - destruct (disk_reply (runtime e)); [discriminate|].
    intros [= <-]. reflexivity.
Qed.

Lemma over_limit_false e part :
  over_limit e MAX_FILE_SIZE (size part) = false <-> within_limit e part.
Proof.
  unfold over_limit, within_limit, MAX_FILE_SIZE.
  destruct (N.ltb_spec (10 * 1024 * 1024) (size part)) as [Hlt | Hle];
    cbn [orb].
  - split; [discriminate | intros [H | [H _]]; lia].
  - destruct (refuses_at_limit (runtime e)); cbn [andb].
    + destruct (N.eqb_spec (size part) (10 * 1024 * 1024)) as [He | He].
      * split; [discriminate | intros [H | [_ H]]; [lia | discriminate]].
      * split; [intros _; left; lia | reflexivity].
    + split; [|reflexivity]. intros _.
      destruct (N.eqb_spec (size part) (10 * 1024 * 1024)) as [He | He];
        [right; split; [assumption | reflexivity] | left; lia].
Qed.

(** A part without a file name is passed over by multer. *)
Lemma post_upload_nameless e part w :
  originalname part = EmptyString ->
  post_upload e {| req_part := Some part |} w
  = (w, json 400 (Js.JObj [("error", Js.JStr "No file uploaded")]%string)).
Proof.
  intros H. unfold post_upload, single. cbn [req_part]. rewrite H. cbn.
  destruct w; reflexivity.
Qed.

Lemma post_upload_no_part e w :
  post_upload e {| req_part := None |} w
  = (w, json 400 (Js.JObj [("error", Js.JStr "No file uploaded")]%string)).
Proof. unfold post_upload. cbn. destruct w; reflexivity. Qed.

(** The ways a request that carries a named part can end. *)
Lemma post_upload_cases e part w :
  originalname part <> EmptyString ->
  let req := {| req_part := Some part |} in
  let fname := stored_name e part in
  (fieldname part <> "image"%string
   /\ single upload "image" e req (fs w)
      = (fs w, inl (MulterError "LIMIT_UNEXPECTED_FILE"
                      (unexpected_field_text (runtime e))))
   /\ post_upload e req w = (w, {| status := 500; body := ErrorPage |}))
  \/ (fieldname part = "image"%string /\ ~ allowed_mime (mimetype part)
      /\ single upload "image" e req (fs w)
         = (fs w, inl (Js.new_Error invalid_type_message))
      /\ post_upload e req w = (w, {| status := 500; body := ErrorPage |}))
  \/ (fieldname part = "image"%string /\ allowed_mime (mimetype part)
      /\ ~ writable e part
      /\ (exists err, single upload "image" e req (fs w) = (fs w, inl err))
      /\ post_upload e req w = (w, {| status := 500; body := ErrorPage |}))
  \/ (fieldname part = "image"%string /\ allowed_mime (mimetype part)
      /\ writable e part /\ ~ within_limit e part
      /\ single upload "image" e req (fs w)
         = (removeFile fname (handleFile fname (spilled (runtime e)) (fs w)),
            inl (MulterError "LIMIT_FILE_SIZE" "File too large"))
      /\ post_upload e req w
         = ({| fs := removeFile fname
                       (handleFile fname (spilled (runtime e)) (fs w));
               collection := collection w |},
            {| status := 500; body := ErrorPage |}))
  \/ (storable e part
      /\ exists msg,
           create_reply e = Store.Rejected msg
           /\ post_upload e req w
              = ({| fs := handleFile fname (size part) (fs w);
                    collection := collection w |},
                 json 500 (Js.JObj [("error", Js.JStr "Failed to upload image");
                                    ("message", Js.JStr msg)]%string)))
  \/ (storable e part
      /\ exists new_id stamp,
           create_reply e = Store.Assigned new_id stamp
           /\ post_upload e req w
              = ({| fs := handleFile fname (size part) (fs w);
                    collection := collection w ++ [created_record e part new_id stamp] |},
                 json 200
                   (Js.JObj [("success", Js.JBool true);
                             ("message", Js.JStr "Image uploaded successfully");
                             ("data", Store.record_json
                                        (created_record e part new_id stamp))]%string))).
Proof.
  intros Hname. cbv zeta.
  unfold post_upload, single. cbn [req_part upload opt_fileFilter opt_fileSize
                                   opt_storage storage filename].
  apply String.eqb_neq in Hname as Hname'. rewrite Hname'.
  destruct (String.eqb_spec (fieldname part) "image") as [Hf | Hf]; cbn [negb].
  2:{ left. split; [assumption|]. split; [reflexivity|]. destruct w; reflexivity. }
  right.
  destruct (includes allowedTypes (mimetype part)) eqn:Hm.
  2:{ left. assert (Hn : ~ allowed_mime (mimetype part)).
      { intros H. apply includes_allowedTypes in H. congruence. }
      rewrite fileFilter_rejects by assumption.
      repeat split; try assumption. destruct w; reflexivity. }
  apply includes_allowedTypes in Hm. right.
  rewrite fileFilter_accepts by assumption.
  fold (stored_name e part).
  destruct (write_refusal e (stored_name e part)) as [err|] eqn:Hw.
  { left. assert (Hn : ~ writable e part).
    { intros H. apply write_refusal_none in H. congruence. }
    split; [assumption|]. split; [assumption|]. split; [assumption|].
    split; [eauto|].
    unfold finalhandler. rewrite (write_refusal_status _ _ _ Hw).
    destruct w; reflexivity. }
  apply write_refusal_none in Hw. right.
  destruct (over_limit e MAX_FILE_SIZE (size part)) eqn:Hl.
  { left. assert (Hn : ~ within_limit e part).
    { intros H. apply over_limit_false in H. congruence. }
    split; [assumption|]. split; [assumption|]. split; [assumption|].
    split; [assumption|]. split; reflexivity. }
  apply over_limit_false in Hl. right.
  assert (Hst : storable e part)
    by exact (conj Hname (conj Hf (conj Hm (conj Hl Hw)))).
  unfold upload_handler.
  cbn [collection file_filename file_originalname file_mimetype fs].
  destruct (create_reply e) as [msg | new_id stamp] eqn:Hr.
  - left. split; [assumption|]. exists msg. split; reflexivity.
  - right. split; [assumption|]. exists new_id, stamp. split; reflexivity.
Qed.

(** The file of a part that multer stores is kept whatever the store
    answers afterwards. *)
Lemma post_upload_stored e part w :
  storable e part ->
  fs (fst (post_upload e {| req_part := Some part |} w))
  = handleFile (stored_name e part) (size part) (fs w)
  /\ forall new_id stamp,
       create_reply e = Store.Assigned new_id stamp ->
       collection (fst (post_upload e {| req_part := Some part |} w))
       = collection w ++ [created_record e part new_id stamp].
Proof.
  intros Hst. pose proof Hst as (Hn & Hf & Hm & Hl & Hw).
  destruct (post_upload_cases e part w Hn)
    as [(Hf' & _) | [(_ & Hm' & _) | [(_ & _ & Hw' & _)
       | [(_ & _ & _ & Hl' & _)
         | [(_ & msg & Hr & ->) | (_ & i & t & Hr & ->)]]]]];
    try contradiction; cbn [fst fs collection].
  - split; [reflexivity|]. intros i t H. congruence.
  - split; [reflexivity|]. intros i' t' H. rewrite Hr in H.
    now injection H as <- <-.
Qed.

End UploadFacts.

(** C1. The filter accepts exactly the four listed MIME types; any other
    declared type is answered with the error "Invalid file type. Only
    JPG, PNG, and GIF are allowed." and nothing of the part is stored:
    the upload directory, the count of bytes written and the collection
    are what they were; when the part reaches the filter (it has a file
    name and comes in the [image] field) that error is what multer hands
    on, with the upload directory untouched. *)
Theorem filter_accepts_exactly_the_allow_list
    (e : Server.Env) (part : Server.Part) (w : Server.World) :
  (Server.fileFilter part = (None, true)
   <-> Ref.allowed_mime (Server.mimetype part))
  /\ (~ Ref.allowed_mime (Server.mimetype part) ->
      Server.fileFilter part
      = (Some (Js.new_Error
                 "Invalid file type. Only JPG, PNG, and GIF are allowed."),
         false)
      /\ fst (Server.post_upload e {| Server.req_part := Some part |} w) = w
      /\ (Server.originalname part <> EmptyString ->
          Server.fieldname part = "image"%string ->
          Server.single Server.upload "image" e
            {| Server.req_part := Some part |} (Server.fs w)
          = (Server.fs w,
             inl (Js.new_Error
                    "Invalid file type. Only JPG, PNG, and GIF are allowed.")))).
Proof.
  split.
  - split.
    + intros H. unfold Server.fileFilter in H.
      destruct (Server.includes Server.allowedTypes (Server.mimetype part))
        eqn:E; [|discriminate].
      now apply includes_allowedTypes.
    + apply fileFilter_accepts.
  - intros H. split; [now apply fileFilter_rejects|].
    destruct (String.eqb_spec (Server.originalname part) EmptyString) as [Hn | Hn].
    + split; [now rewrite post_upload_nameless | contradiction].
    + destruct (post_upload_cases e part w Hn)
        as [(Hf & _ & ->) | [(_ & _ & Hs & ->) | [(_ & Hm & _)
           | [(_ & Hm & _) | [((_ & _ & Hm & _) & _) | ((_ & _ & Hm & _) & _)]]]]];
        try contradiction.
      * split; [reflexivity|]. intros _ Hf'. contradiction.
      * split; [reflexivity|]. intros _ _. exact Hs.
Qed.

Lemma filter_accepts_exactly_the_allow_list_witness :
  Server.single Server.upload "image"
    {| Server.now := 1763578360378; Server.salt := 911074405;
       Server.create_reply := Store.Assigned "r1" 1763578360400;
       Server.runtime := Derived.sample_runtime |}
    {| Server.req_part :=
         Some {| Server.fieldname := "image";
                 Server.originalname := "notes.txt";
                 Server.mimetype := "text/plain";
                 Server.size := 12 |} |}
    {| Server.files := ∅; Server.written := 0 |}
  = ({| Server.files := ∅; Server.written := 0 |},
     inl (Js.new_Error
            "Invalid file type. Only JPG, PNG, and GIF are allowed.")).
Proof.
  refine (match proj2 (filter_accepts_exactly_the_allow_list
                  {| Server.now := 1763578360378; Server.salt := 911074405;
                     Server.create_reply := Store.Assigned "r1" 1763578360400;
                     Server.runtime := Derived.sample_runtime |}
                  {| Server.fieldname := "image";
                     Server.originalname := "notes.txt";
                     Server.mimetype := "text/plain"; Server.size := 12 |}
                  {| Server.fs := {| Server.files := ∅; Server.written := 0 |};
                     Server.collection := [] |}) _ with
          | conj _ (conj _ C) => C _ eq_refl
          end).
  - unfold Ref.allowed_mime. cbn. intuition discriminate.
  - discriminate.
Defined.

(** C2, as stated, fails: the [text/plain] upload of [notes.txt] is
    answered 500, which is not a 4xx status. *)
Lemma text_plain_upload_is_answered_500 :
  let r := snd (Server.post_upload
                  {| Server.now := 1763578360378; Server.salt := 911074405;
                     Server.create_reply := Store.Assigned "r1" 1763578360400;
                     Server.runtime := Derived.sample_runtime |}
                  {| Server.req_part :=
                       Some {| Server.fieldname := "image";
                               Server.originalname := "notes.txt";
                               Server.mimetype := "text/plain";
                               Server.size := 12 |} |}
                  {| Server.fs := {| Server.files := ∅; Server.written := 0 |};
                     Server.collection := [] |}) in
  Server.status r = 500
  /\ ((400 <=? Server.status r) && (Server.status r <? 500)) = false.
Proof. cbv zeta. repeat split; vm_compute; reflexivity. Qed.

(** C2, amended. An upload whose part declares a MIME type outside the
    allow-list is refused before anything is stored: no byte is written
    and no record is created. When the part has a file name the
    application, having no error middleware, answers through Express's
    final handler with status 500; a part without a file name is passed
    over by multer and answered 400 by the route. *)
Theorem disallowed_type_is_answered_500
    (e : Server.Env) (part : Server.Part) (w : Server.World) :
  ~ Ref.allowed_mime (Server.mimetype part) ->
  let out := Server.post_upload e {| Server.req_part := Some part |} w in
  fst out = w
  /\ (Server.originalname part <> EmptyString ->
      Server.status (snd out) = 500
      /\ Server.body (snd out) = Server.ErrorPage)
  /\ (Server.originalname part = EmptyString ->
      Server.status (snd out) = 400).
Proof.
  intros H. cbv zeta.
  destruct (String.eqb_spec (Server.originalname part) EmptyString) as [Hn | Hn].
  - rewrite post_upload_nameless by assumption.
    split; [reflexivity|]. split; [contradiction | reflexivity].
  - destruct (post_upload_cases e part w Hn)
      as [(_ & _ & ->) | [(_ & _ & _ & ->) | [(_ & Hm & _)
         | [(_ & Hm & _) | [((_ & _ & Hm & _) & _) | ((_ & _ & Hm & _) & _)]]]]];
      try contradiction;
      (split; [reflexivity|]); (split; [split; reflexivity | contradiction]).
Qed.

Lemma disallowed_type_is_answered_500_witness :
  let out := Server.post_upload
               {| Server.now := 1763578360378; Server.salt := 911074405;
                  Server.create_reply := Store.Assigned "r1" 1763578360400;
                  Server.runtime := Derived.sample_runtime |}
               {| Server.req_part :=
                    Some {| Server.fieldname := "image";
                            Server.originalname := "notes.txt";
                            Server.mimetype := "text/plain";
                            Server.size := 12 |} |}
               {| Server.fs := {| Server.files := ∅; Server.written := 0 |};
                  Server.collection := [] |} in
  fst out = {| Server.fs := {| Server.files := ∅; Server.written := 0 |};
               Server.collection := [] |}
  /\ Server.status (snd out) = 500.
Proof.
  cbv zeta.
  refine (match disallowed_type_is_answered_500
                  {| Server.now := 1763578360378; Server.salt := 911074405;
                     Server.create_reply := Store.Assigned "r1" 1763578360400;
                     Server.runtime := Derived.sample_runtime |}
                  {| Server.fieldname := "image";
                     Server.originalname := "notes.txt";
                     Server.mimetype := "text/plain"; Server.size := 12 |}
                  {| Server.fs := {| Server.files := ∅; Server.written := 0 |};
                     Server.collection := [] |} _ with
          | conj A (conj B _) => conj A (proj1 (B _))
          end).
  - unfold Ref.allowed_mime. cbn. intuition discriminate.
  - discriminate.
Defined.

(** C3, as stated, fails: an oversized part of a type outside the
    allow-list is refused by the filter, with the filter's error and not
    the size error. *)
Lemma oversized_upload_other_outcomes :
  snd (Server.single Server.upload "image"
         {| Server.now := 1763578360378; Server.salt := 911074405;
            Server.create_reply := Store.Assigned "r1" 1763578360400;
            Server.runtime := Derived.sample_runtime |}
         {| Server.req_part :=
              Some {| Server.fieldname := "image";
                      Server.originalname := "dump.txt";
                      Server.mimetype := "text/plain";
                      Server.size := 10485761 |} |}
         {| Server.files := ∅; Server.written := 0 |})
  = inl {| Js.err_name := "Error"; Js.err_code := None;
           Js.err_message :=
             "Invalid file type. Only JPG, PNG, and GIF are allowed.";
           Js.err_status := None |}.
Proof. vm_compute. reflexivity. Qed.

(** C3, amended. An upload that passes the filter (a named part in the
    [image] field, of an allowed type), whose file the storage engine
    can create and whose body is longer than 10 MiB, is refused with
    multer's [LIMIT_FILE_SIZE] error: no file of the generated name is
    left in the upload directory, no record is created, and the answer
    is 500. *)
Theorem oversized_upload_is_refused
    (e : Server.Env) (part : Server.Part) (w : Server.World) :
  Server.originalname part <> EmptyString ->
  Server.fieldname part = "image"%string ->
  Ref.allowed_mime (Server.mimetype part) ->
  Derived.writable e part ->
  (10 * 1024 * 1024 < Server.size part)%N ->
  let req := {| Server.req_part := Some part |} in
  (exists err,
     snd (Server.single Server.upload "image" e req (Server.fs w)) = inl err
     /\ Js.err_name err = "MulterError"%string
     /\ Js.err_code err = Some "LIMIT_FILE_SIZE"%string)
  /\ Server.files (Server.fs (fst (Server.post_upload e req w)))
     !! Derived.stored_name e part = None
  /\ Server.collection (fst (Server.post_upload e req w)) = Server.collection w
  /\ Server.status (snd (Server.post_upload e req w)) = 500.
Proof.
  intros Hn Hf Hm Hw Hs. cbv zeta.
  destruct (post_upload_cases e part w Hn)
    as [(Hf' & _) | [(_ & Hm' & _) | [(_ & _ & Hw' & _)
       | [(_ & _ & _ & _ & -> & ->)
         | [((_ & _ & _ & Hl & _) & _) | ((_ & _ & _ & Hl & _) & _)]]]]];
    try contradiction;
    try (destruct Hl as [Hl | [Hl _]]; lia).
  cbn [fst snd Server.fs Server.collection Server.status].
  split; [eexists; repeat split|].
  split; [|split; reflexivity].
  unfold Server.removeFile. cbn [Server.files]. apply lookup_delete_eq.
Qed.

Lemma oversized_upload_is_refused_witness :
  let e := {| Server.now := 1763578360378; Server.salt := 911074405;
              Server.create_reply := Store.Assigned "r1" 1763578360400;
              Server.runtime := Derived.sample_runtime |} in
  let part := {| Server.fieldname := "image"; Server.originalname := "huge.png";
                 Server.mimetype := "image/png"; Server.size := 10485761 |} in
  let w := {| Server.fs := {| Server.files := ∅; Server.written := 0 |};
              Server.collection := [] |} in
  let req := {| Server.req_part := Some part |} in
  Server.files (Server.fs (fst (Server.post_upload e req w)))
  !! Storage.filename 1763578360378 911074405 "huge.png" = None
  /\ Server.collection (fst (Server.post_upload e req w)) = []
  /\ Server.status (snd (Server.post_upload e req w)) = 500.
Proof.
  cbv zeta.
  refine (proj2 (oversized_upload_is_refused
           {| Server.now := 1763578360378; Server.salt := 911074405;
              Server.create_reply := Store.Assigned "r1" 1763578360400;
              Server.runtime := Derived.sample_runtime |}
           {| Server.fieldname := "image"; Server.originalname := "huge.png";
              Server.mimetype := "image/png"; Server.size := 10485761 |}
           {| Server.fs := {| Server.files := ∅; Server.written := 0 |};
              Server.collection := [] |} _ eq_refl _ _ _)).
  - discriminate.
  - right. right. left. reflexivity.
  - split; reflexivity.
  - reflexivity.
Defined.

(** C4. For every accepted upload (a part that multer stores: named, in
    the [image] field, of an allowed type, within the size limit, its
    file created; and a record created by the store) the answer is 200
    with the created record, whose location is [/uploads/] followed by
    the generated storage filename; that location starts with exactly
    one slash, and the file stored under the generated name holds the
    whole body. Whatever the name of the stored file, the handler's
    location is [/uploads/] followed by it and starts with exactly one
    slash. *)
Theorem accepted_upload_location
    (e : Server.Env) (part : Server.Part) (w : Server.World)
    (new_id : string) (stamp : N) :
  Derived.storable e part ->
  Server.create_reply e = Store.Assigned new_id stamp ->
  let fname :=
    Storage.filename (Server.now e) (Server.salt e) (Server.originalname part) in
  let record :=
    {| Store.id := new_id; Store.name := Server.originalname part;
       Store.location := "/uploads/" +:+ fname;
       Store.mime_type := Server.mimetype part;
       Store.created := stamp; Store.updated := stamp |} in
  let out := Server.post_upload e {| Server.req_part := Some part |} w in
  Server.status (snd out) = 200
  /\ Server.body (snd out)
     = Server.Json
         (Js.JObj [("success", Js.JBool true);
                   ("message", Js.JStr "Image uploaded successfully");
                   ("data", Derived.record_fields record)]%string)
  /\ Server.collection (fst out) = Server.collection w ++ [record]
  /\ Server.files (Server.fs (fst out)) !! fname = Some (Server.size part)
  /\ Ref.leading_slashes (Store.location record) = 1%nat
  /\ Str.startsWith (Store.location record) "/uploads/" = true
  /\ (forall (f : Server.File) (w0 : Server.World),
       exists r,
         Server.status (snd (Server.upload_handler e (Some f) w0)) = 200
         /\ Server.body (snd (Server.upload_handler e (Some f) w0))
            = Server.Json
                (Js.JObj [("success", Js.JBool true);
                          ("message", Js.JStr "Image uploaded successfully");
                          ("data", Derived.record_fields r)]%string)
         /\ Store.location r = "/uploads/" +:+ Server.file_filename f
         /\ Ref.leading_slashes (Store.location r) = 1%nat).
Proof.
  intros Hst Hr. cbv zeta. pose proof Hst as (Hn & _).
  destruct (post_upload_cases e part w Hn)
    as [(Hf' & _) | [(_ & Hm' & _) | [(_ & _ & Hw' & _)
       | [(_ & _ & _ & Hl' & _)
         | [(_ & msg & Hr' & _) | (_ & i & t & Hr' & ->)]]]]];
    try (destruct Hst as (_ & ? & ? & ? & ?); contradiction);
    try congruence.
  rewrite Hr in Hr'. injection Hr' as <- <-.
  cbn [fst snd Server.fs Server.collection Server.status Server.body Server.json].
  split; [reflexivity|]. split; [reflexivity|]. split; [reflexivity|].
  split; [|split; [reflexivity|split; [reflexivity|]]].
  - unfold Server.handleFile. cbn [Server.files]. apply lookup_insert_eq.
  - intros f w0. unfold Server.upload_handler. rewrite Hr.
    eexists. split; [reflexivity|]. split; [reflexivity|]. split; reflexivity.
Qed.

Lemma accepted_upload_location_witness :
  let part := {| Server.fieldname := "image"; Server.originalname := "cat.png";
                 Server.mimetype := "image/png"; Server.size := 5242880 |} in
  let out :=
    Server.post_upload
      {| Server.now := 1763578360378; Server.salt := 911074405;
         Server.create_reply := Store.Assigned "r1" 1763578360400;
         Server.runtime := Derived.sample_runtime |}
      {| Server.req_part := Some part |}
      {| Server.fs := {| Server.files := ∅; Server.written := 0 |};
         Server.collection := [] |} in
  Server.status (snd out) = 200
  /\ Server.collection (fst out)
     = [{| Store.id := "r1"; Store.name := "cat.png";
           Store.location :=
             "/uploads/" +:+ Storage.filename 1763578360378 911074405 "cat.png";
           Store.mime_type := "image/png";
           Store.created := 1763578360400; Store.updated := 1763578360400 |}].
Proof.
  cbv zeta.
  refine (match accepted_upload_location
                  {| Server.now := 1763578360378; Server.salt := 911074405;
                     Server.create_reply := Store.Assigned "r1" 1763578360400;
                     Server.runtime := Derived.sample_runtime |}
                  {| Server.fieldname := "image";
                     Server.originalname := "cat.png";
                     Server.mimetype := "image/png"; Server.size := 5242880 |}
                  {| Server.fs := {| Server.files := ∅; Server.written := 0 |};
                     Server.collection := [] |}
                  "r1" 1763578360400 _ eq_refl with
          | conj A (conj _ (conj C _)) => conj A C
          end).
  split; [discriminate|]. split; [reflexivity|].
  split; [right; right; left; reflexivity|].
  split; [left; reflexivity | split; reflexivity].
Defined.

(** C7. When the store's create call fails after the file was written
    (a part that multer stores: named, in the [image] field, of an
    allowed type, within the size limit, its file created), the file
    stays in the upload directory with its whole body, no record is
    added, and the answer has status 500 and the JSON body with [error]
    "Failed to upload image" and [message] the store's message. *)
Theorem store_failure_keeps_file
    (e : Server.Env) (part : Server.Part) (w : Server.World)
    (message : string) :
  Derived.storable e part ->
  Server.create_reply e = Store.Rejected message ->
  let fname :=
    Storage.filename (Server.now e) (Server.salt e) (Server.originalname part) in
  let out := Server.post_upload e {| Server.req_part := Some part |} w in
  Server.status (snd out) = 500
  /\ Server.body (snd out)
     = Server.Json
         (Js.JObj [("error", Js.JStr "Failed to upload image");
                   ("message", Js.JStr message)]%string)
  /\ Server.files (Server.fs (fst out)) !! fname = Some (Server.size part)
  /\ Server.collection (fst out) = Server.collection w.
Proof.
  intros Hst Hr. cbv zeta. pose proof Hst as (Hn & _).
  destruct (post_upload_cases e part w Hn)
    as [(Hf' & _) | [(_ & Hm' & _) | [(_ & _ & Hw' & _)
       | [(_ & _ & _ & Hl' & _)
         | [(_ & msg & Hr' & ->) | (_ & i & t & Hr' & _)]]]]];
    try (destruct Hst as (_ & ? & ? & ? & ?); contradiction);
    try congruence.
  rewrite Hr in Hr'. injection Hr' as <-.
  cbn [fst snd Server.fs Server.collection Server.status Server.body Server.json].
  split; [reflexivity|]. split; [reflexivity|]. split; [|reflexivity].
  unfold Server.handleFile. cbn [Server.files]. apply lookup_insert_eq.
Qed.

Lemma store_failure_keeps_file_witness :
  let out :=
    Server.post_upload
      {| Server.now := 1763578360378; Server.salt := 911074405;
         Server.create_reply := Store.Rejected "Failed to create record.";
         Server.runtime := Derived.sample_runtime |}
      {| Server.req_part :=
           Some {| Server.fieldname := "image"; Server.originalname := "cat.png";
                   Server.mimetype := "image/png"; Server.size := 5242880 |} |}
      {| Server.fs := {| Server.files := ∅; Server.written := 0 |};
         Server.collection := [] |} in
  Server.status (snd out) = 500
  /\ Server.body (snd out)
     = Server.Json
         (Js.JObj [("error", Js.JStr "Failed to upload image");
                   ("message", Js.JStr "Failed to create record.")]%string)
  /\ Server.files (Server.fs (fst out))
     !! Storage.filename 1763578360378 911074405 "cat.png" = Some 5242880%N
  /\ Server.collection (fst out) = [].
Proof.
  cbv zeta.
  apply (store_failure_keeps_file
           {| Server.now := 1763578360378; Server.salt := 911074405;
              Server.create_reply := Store.Rejected "Failed to create record.";
              Server.runtime := Derived.sample_runtime |}
           {| Server.fieldname := "image"; Server.originalname := "cat.png";
              Server.mimetype := "image/png"; Server.size := 5242880 |}
           {| Server.fs := {| Server.files := ∅; Server.written := 0 |};
              Server.collection := [] |}
           "Failed to create record.").
  - split; [discriminate|]. split; [reflexivity|].
    split; [right; right; left; reflexivity|].
    split; [left; reflexivity | split; reflexivity].
  - reflexivity.
Defined.

(** ** Listing Service *)

Section ListingFacts.

Import Ref Store.

Lemma insert_sorted_Permutation o r l :
  Permutation (insert_sorted o r l) (r :: l).
Proof.
  induction l as [|x l IH]; cbn; [reflexivity|].
  destruct (before o r x); [reflexivity|].
  rewrite IH. apply perm_swap.
Qed.

Lemma order_by_Permutation o l : Permutation (order_by o l) l.
Proof.
  induction l as [|x l IH]; cbn; [reflexivity|].
  rewrite insert_sorted_Permutation. now constructor.
Qed.

Lemma newest_first_trans a b c :
  newest_first a b -> newest_first b c -> newest_first a c.
Proof. unfold newest_first. lia. Qed.

Lemma insert_sorted_newest_first r l :
  StronglySorted newest_first l ->
  StronglySorted newest_first (insert_sorted (true, FCreated) r l).
Proof.
  induction 1 as [|x l Hs IH Hx]; cbn.
  - constructor; constructor.
  - unfold before. cbn [fst snd field_leb].
    destruct (N.leb_spec (created x) (created r)) as [Hle | Hgt].
    + constructor; [constructor; assumption|].
      constructor; [exact Hle|].
      eapply Forall_impl; [exact Hx|].
      intros y Hy. eapply newest_first_trans; [exact Hle | exact Hy].
    + constructor; [exact IH|].
      eapply Permutation_Forall.
      * symmetry. apply insert_sorted_Permutation.
      * constructor; [unfold newest_first; lia | exact Hx].
Qed.

Lemma order_by_newest_first l :
  StronglySorted newest_first (order_by (true, FCreated) l).
Proof.
  induction l as [|x l IH]; cbn; [constructor|].
  now apply insert_sorted_newest_first.
Qed.

End ListingFacts.



(** Two records created one after the other come back latest first. *)
Example listing_two_records :
  let r1 := {| Store.id := "a"; Store.name := "first.png";
               Store.location := "/uploads/1-1.png";
               Store.mime_type := "image/png";
               Store.created := 100; Store.updated := 100 |} in
  let r2 := {| Store.id := "b"; Store.name := "second.png";
               Store.location := "/uploads/2-2.png";
               Store.mime_type := "image/png";
               Store.created := 200; Store.updated := 200 |} in
  Server.get_api_images None
    {| Server.fs := {| Server.files := ∅; Server.written := 0 |};
       Server.collection := [r1; r2] |}
  = Server.json 200 (Js.JArr [Store.record_json r2; Store.record_json r1]).
Proof. reflexivity. Qed.

(** ** Gallery *)

Section GalleryFacts.

Import Ref Gallery.

Lemma fetched_none r : api_call_fails r = true -> fetched r = None.
Proof.
  destruct r as [|code payload]; cbn; [reflexivity|].
  unfold ok. destruct ((200 <=? code) && (code <=? 299)); cbn; [|reflexivity].
  destruct payload; [discriminate | reflexivity].
Qed.

Lemma rendered_error_text :
  rendered_text error_markup
  = "Failed to load images. Please try again later."%string.
Proof. reflexivity. Qed.

Lemma escapeHtml_bounded n text :
  (String.length text <= n)%nat ->
  Forall (fun c => c <> "<"%char /\ c <> ">"%char)
         (Str.chars (escapeHtml text))
  /\ amps_are_references (escapeHtml text) = true.
Proof.
  revert text. induction n as [|n IH]; intros text Hn.
  - destruct text; [|cbn in Hn; lia]. split; [constructor | reflexivity].
  - destruct text as [|c rest]; [split; [constructor | reflexivity]|].
    cbn [String.length] in Hn.
    destruct (IH rest ltac:(lia)) as [IHa IHb].
    cbn [escapeHtml].
    destruct (Ascii.eqb_spec c "&").
    { rewrite chars_append. split; [|exact IHb].
      apply Forall_app. split; [|exact IHa].
      repeat constructor; discriminate. }
    destruct (Ascii.eqb_spec c "<").
    { rewrite chars_append. split; [|exact IHb].
      apply Forall_app. split; [|exact IHa].
      repeat constructor; discriminate. }
    destruct (Ascii.eqb_spec c ">").
    { rewrite chars_append. split; [|exact IHb].
      apply Forall_app. split; [|exact IHa].
      repeat constructor; discriminate. }
    assert (Hplain :
      Forall (fun c0 => c0 <> "<"%char /\ c0 <> ">"%char)
             (Str.chars (String c (escapeHtml rest)))
      /\ amps_are_references (String c (escapeHtml rest)) = true).
    { split.
      - constructor; [split; assumption | exact IHa].
      - cbn [amps_are_references].
        destruct (Ascii.eqb_spec c "&"); [contradiction|]. exact IHb. }
    destruct rest as [|d rest']; [exact Hplain|].
    destruct (Ascii.eqb c "194" && Ascii.eqb d "160"); [|exact Hplain].
    cbn [String.length] in Hn.
    destruct (IH rest' ltac:(lia)) as [IHa' IHb'].
    rewrite chars_append. split; [|exact IHb'].
    apply Forall_app. split; [|exact IHa'].
    repeat constructor; discriminate.
Qed.

(** What [escapeHtml] returns holds no angle bracket, and each of its
    ampersands starts a character reference. *)
Lemma escapeHtml_output text :
  Str.contains "<" (escapeHtml text) = false
  /\ Str.contains ">" (escapeHtml text) = false
  /\ amps_are_references (escapeHtml text) = true.
Proof.
  destruct (escapeHtml_bounded (String.length text) text (le_n _)) as [Ha Hb].
  rewrite Forall_forall in Ha.
  repeat split; [| |exact Hb]; unfold Str.contains;
    apply not_true_is_false; intros H;
    apply existsb_exists in H as (c & Hin & Hc);
    apply Ascii.eqb_eq in Hc; subst c;
    apply list_elem_of_In, Ha in Hin; destruct Hin; congruence.
Qed.

End GalleryFacts.

(** C9. When the API call fails (fetch rejects, status outside 200..299
    or unparsable body) and the page has a gallery container, the
    container's content becomes the error paragraph, whose displayed text
    is exactly "Failed to load images. Please try again later."; what
    the container held before is gone and no other element changes. *)
Theorem failed_api_call_shows_error_message
    (formatDate : N -> string) (r : Gallery.FetchResult)
    (doc : gmap string string) (old : string) :
  Ref.api_call_fails r = true ->
  doc !! "gallery"%string = Some old ->
  let doc' := Gallery.loadImages formatDate r doc in
  (exists markup,
     doc' !! "gallery"%string = Some markup
     /\ markup = Gallery.error_markup
     /\ Gallery.rendered_text markup
        = "Failed to load images. Please try again later."%string)
  /\ (forall k : string, k <> "gallery"%string -> doc' !! k = doc !! k).
Proof.
  intros Hr Hg. cbv zeta. unfold Gallery.loadImages.
  rewrite (fetched_none r Hr). unfold Gallery.show_error. rewrite Hg. split.
  - exists Gallery.error_markup. rewrite lookup_insert_eq.
    repeat split.
  - intros k Hk. now rewrite lookup_insert_ne.
Qed.

Lemma failed_api_call_shows_error_message_witness :
  Gallery.loadImages (fun _ => "Nov 2, 2026, 07:07 PM"%string)
    (Gallery.Responded 500 None)
    (<["gallery"%string := "<p>Loading...</p>"%string]> ∅)
  !! "gallery"%string = Some Gallery.error_markup.
Proof.
  refine (match failed_api_call_shows_error_message
                  (fun _ => "Nov 2, 2026, 07:07 PM"%string)
                  (Gallery.Responded 500 None)
                  (<["gallery"%string := "<p>Loading...</p>"%string]> ∅)
                  "<p>Loading...</p>" eq_refl _ with
          | conj (ex_intro _ m (conj A (conj B _))) _ =>
              eq_trans A (f_equal Some B)
          end).
  apply lookup_insert_eq.
Defined.

(** C10. The card of a record named [<b>&.png]: the name paragraph holds
    the escaped name, while the [alt] attribute of the image holds the
    name as it is, angle brackets and ampersand included; the location
    and the MIME type are inserted as they are too. *)
Theorem card_alt_attribute_holds_raw_name :
  let image := {| Store.id := "r1"; Store.name := "<b>&.png";
                  Store.location := "/uploads/1763578360378-911074405.png";
                  Store.mime_type := "image/png";
                  Store.created := 1763578360400;
                  Store.updated := 1763578360400 |} in
  let markup := Gallery.card (fun _ => "Nov 19, 2025, 06:52 PM"%string) image in
  Gallery.escapeHtml (Store.name image) = "&lt;b&gt;&amp;.png"%string
  /\ Str.occurrences
       (">" +:+ Gallery.escapeHtml (Store.name image) +:+ "</p>") markup = 1%nat
  /\ Str.occurrences
       (" alt=" +:+ Str.dq +:+ Store.name image +:+ Str.dq) markup = 1%nat
  /\ Str.occurrences "<b>" markup = 1%nat
  /\ Str.occurrences
       (" src=" +:+ Str.dq +:+ Store.location image +:+ Str.dq) markup = 1%nat
  /\ Str.occurrences
       (">" +:+ Store.mime_type image +:+ " ") markup = 1%nat.
Proof. cbv zeta. repeat split; vm_compute; reflexivity. Qed.

(** ** Further properties of the Filename Generator *)

Section FilenameFacts.

Import Path Ref.

Lemma chars_inj a b : Str.chars a = Str.chars b -> a = b.
Proof.
  intros H. rewrite <- (of_chars_chars a), <- (of_chars_chars b). now rewrite H.
Qed.

Lemma dec_inj n m : Str.dec n = Str.dec m -> n = m.
Proof.
  intros H. pose proof (dec_parse n) as Hn. rewrite H, dec_parse in Hn.
  now injection Hn.
Qed.

(** A run of digits followed by something that does not start with a
    digit splits in one way only. *)
Lemma digits_split (d d' r r' : list ascii) :
  Forall (fun c => is_digit c = true) d ->
  Forall (fun c => is_digit c = true) d' ->
  match r with [] => True | c :: _ => is_digit c = false end ->
  match r' with [] => True | c :: _ => is_digit c = false end ->
  d ++ r = d' ++ r' -> d = d' /\ r = r'.
Proof.
  intros Hd. revert d'. induction Hd as [|c d Hc _ IH]; intros d' Hd' Hr Hr' E.
  - destruct Hd' as [|c' d' Hc' _]; [now split|].
    cbn in E. subst r. congruence.
  - destruct Hd' as [|c' d' Hc' Hd'].
    + cbn in E. subst r'. congruence.
    + cbn in E. injection E as -> E.
      destruct (IH d' Hd' Hr Hr' E) as [-> ->]. now split.
Qed.

Lemma extension_head p :
  match extname_chars p with [] => True | c :: _ => is_digit c = false end.
Proof.
  destruct (extname_chars_shape p) as [-> | (w & -> & _)]; [exact I | reflexivity].
Qed.

Lemma extname_chars_trailing_slash p :
  extname_chars (p ++ [CHAR_FORWARD_SLASH]) = extname_chars p.
Proof.
  destruct (path_components p)
    as [H | (pre & comp & sl & -> & Hb & Hne & Hcomp & Hsl)].
  - rewrite !extname_chars_separators; [reflexivity | assumption |].
    apply Forall_app. split; [assumption | now constructor].
  - rewrite <- !app_assoc.
    rewrite !extname_chars_component; try assumption; [reflexivity|].
    apply Forall_app. split; [assumption | now constructor].
Qed.

Lemma extname_chars_basename dir base :
  base <> [] -> Forall not_slash base ->
  extname_chars (dir ++ CHAR_FORWARD_SLASH :: base) = extname_chars base.
Proof.
  intros Hne Hb.
  pose proof (extname_chars_component (dir ++ [CHAR_FORWARD_SLASH]) base []
                (or_intror (ex_intro _ dir eq_refl)) Hne Hb (List.Forall_nil _)) as H1.
  pose proof (extname_chars_component [] base [] (or_introl eq_refl)
                Hne Hb (List.Forall_nil _)) as H2.
  rewrite app_nil_r in H1, H2. rewrite <- app_assoc in H1. cbn [app] in H1, H2.
  now rewrite H1, H2.
Qed.

Lemma count_occ_plain (l : list ascii) :
  Forall plain l -> count_occ ascii_dec l "."%char = 0%nat.
Proof.
  intros H. apply count_occ_not_In. intros Hin.
  rewrite Forall_forall in H. apply list_elem_of_In, H in Hin.
  destruct Hin as [_ Hd]. now apply Hd.
Qed.

End FilenameFacts.

Lemma filename_eq_inv
    (now now' salt salt' : N) (originalname originalname' : string) :
  Storage.filename now salt originalname
  = Storage.filename now' salt' originalname' ->
  now = now' /\ salt = salt'
  /\ Path.extname originalname = Path.extname originalname'.
Proof.
  intros H. apply (f_equal Str.chars) in H.
  rewrite !filename_chars in H. unfold Storage.uniqueSuffix in H.
  rewrite !chars_append, <- !app_assoc in H.
  change (Str.chars "-") with ["-"%char] in H. cbn [app] in H.
  apply digits_split in H as [H1 H2];
    [| apply dec_digits | apply dec_digits | reflexivity | reflexivity].
  injection H2 as H2.
  apply digits_split in H2 as [H2 H3];
    [| apply dec_digits | apply dec_digits
     | apply extension_head | apply extension_head].
  repeat split.
  - apply dec_inj, chars_inj, H1.
  - apply dec_inj, chars_inj, H2.
  - unfold Path.extname. now rewrite H3.
Qed.

(** X1. Two storage filenames are equal only if they were generated at
    the same millisecond, with the same random draw, from names of the
    same extension. *)
Theorem filename_injective
    (now now' salt salt' : N) (originalname originalname' : string) :
  Storage.filename now salt originalname
  = Storage.filename now' salt' originalname' ->
  now = now' /\ salt = salt'
  /\ Path.extname originalname = Path.extname originalname'.
Proof. apply filename_eq_inv. Qed.

Lemma filename_injective_witness :
  (1763578360378 = 1763578360378)%N /\ (911074405 = 911074405)%N
  /\ Path.extname "cat.png" = Path.extname "dir/dog.png".
Proof.
  apply (filename_injective 1763578360378 1763578360378
           911074405 911074405 "cat.png" "dir/dog.png").
  vm_compute. reflexivity.
Defined.

(** X2. The storage filename does not depend on a directory part of the
    client's name nor on a slash that ends it: only the last path
    component matters. *)
Theorem filename_ignores_directory
    (now salt : N) (dir base originalname : string) :
  (base <> EmptyString -> Str.contains "/" base = false ->
   Storage.filename now salt (dir +:+ "/" +:+ base)
   = Storage.filename now salt base)
  /\ Storage.filename now salt (originalname +:+ "/")
     = Storage.filename now salt originalname.
Proof.
  split.
  - intros Hne Hs. unfold Storage.filename, Path.extname. do 2 f_equal.
    rewrite !chars_append. apply extname_chars_basename.
    + destruct base; [contradiction | discriminate].
    + unfold Str.contains in Hs. apply Forall_forall. intros c Hin ->.
      apply list_elem_of_In in Hin.
      assert (existsb (Ascii.eqb "/") (Str.chars base) = true); [|congruence].
      apply existsb_exists. exists "/"%char. split; [assumption | reflexivity].
  - unfold Storage.filename, Path.extname. do 2 f_equal.
    rewrite chars_append. apply extname_chars_trailing_slash.
Qed.

Lemma filename_ignores_directory_witness :
  Storage.filename 1763578360378 911074405 "holiday/2025/cat.png"
  = Storage.filename 1763578360378 911074405 "cat.png".
Proof.
  apply (proj1 (filename_ignores_directory 1763578360378 911074405
                  "holiday/2025" "cat.png" EmptyString)).
  - discriminate.
  - reflexivity.
Defined.

(** X3. A storage filename holds at most one dot: of a name with several
    dots only the last extension is kept. *)
Theorem filename_at_most_one_dot (now salt : N) (originalname : string) :
  (Derived.count_char "." (Storage.filename now salt originalname) <= 1)%nat.
Proof.
  unfold Derived.count_char. rewrite filename_chars, count_occ_app.
  destruct (uniqueSuffix_plain now salt) as [_ Hp].
  rewrite (count_occ_plain _ Hp).
  destruct (extname_chars_shape (Str.chars originalname))
    as [-> | (w & -> & Hw)]; [cbn; lia|].
  cbn [count_occ]. destruct (ascii_dec Path.CHAR_DOT "."); [|contradiction].
  pose proof (count_occ_plain _ Hw) as Hc. lia.
Qed.

(** ** Further properties of the upload route *)

(** X4. [POST /upload] answers 200, 400 or 500 and nothing else: 400
    exactly when the request carries no file part or a part without a
    file name, 200 exactly when multer stores the part (named, in the
    [image] field, of an allowed type, within the size limit, its file
    created) and the store creates the record. *)
Theorem upload_status_classes
    (e : Server.Env) (req : Server.Request) (w : Server.World) :
  let r := snd (Server.post_upload e req w) in
  (Server.status r = 200 \/ Server.status r = 400 \/ Server.status r = 500)
  /\ (Server.status r = 400
      <-> Server.req_part req = None
          \/ exists part, Server.req_part req = Some part
                          /\ Server.originalname part = EmptyString)
  /\ (Server.status r = 200 <-> Derived.accepted e req).
Proof.
  cbv zeta. destruct req as [[part|]].
  - destruct (String.eqb_spec (Server.originalname part) EmptyString) as [Hn | Hn].
    { rewrite post_upload_nameless by assumption.
      cbn [snd Server.status Server.json Server.req_part].
      split; [auto|]. split; [split; [intros _; right; eauto | reflexivity]|].
      split; [discriminate|].
      intros (p & i & t & [= <-] & (Hn' & _) & _). contradiction. }
    assert (H400 : forall s : Z, s <> 400 ->
              (s = 400 <-> Some part = None
                           \/ exists p, Some part = Some p
                                        /\ Server.originalname p = EmptyString)).
    { intros s Hs. split; [intros; contradiction|].
      intros [H | (p & [= <-] & H)]; [discriminate | contradiction]. }
    destruct (post_upload_cases e part w Hn)
      as [(Hf & _ & ->) | [(_ & Hm & _ & ->) | [(_ & _ & Hw & _ & ->)
         | [(_ & _ & _ & Hl & _ & ->)
           | [(Hst & msg & Hr & ->) | (Hst & i & t & Hr & ->)]]]]];
      cbn [snd Server.status Server.json Server.req_part];
      (split; [auto|]); (split; [apply H400; discriminate|]);
      (split; [try discriminate | ]).
    + intros (p & i & t & [= <-] & (_ & Hf' & _) & _). contradiction.
    + intros (p & i & t & [= <-] & (_ & _ & Hm' & _) & _). contradiction.
    + intros (p & i & t & [= <-] & (_ & _ & _ & _ & Hw') & _). contradiction.
    + intros (p & i & t & [= <-] & (_ & _ & _ & Hl' & _) & _). contradiction.
    + intros (p & i & t & [= <-] & _ & Hr'). congruence.
    + intros _. exists part, i, t. split; [reflexivity|]. split; assumption.
    + reflexivity.
  - rewrite post_upload_no_part. cbn [snd Server.status Server.json Server.req_part].
    split; [auto|]. split; [split; [intros _; now left | reflexivity]|].
    split; [discriminate|].
    intros (p & i & t & H & _). discriminate.
Qed.

Lemma upload_status_classes_witness :
  Server.status
    (snd (Server.post_upload
            {| Server.now := 1763578360378; Server.salt := 911074405;
               Server.create_reply := Store.Assigned "r1" 1763578360400;
               Server.runtime := Derived.sample_runtime |}
            {| Server.req_part :=
                 Some {| Server.fieldname := "image";
                         Server.originalname := "cat.png";
                         Server.mimetype := "image/png";
                         Server.size := 5242880 |} |}
            {| Server.fs := {| Server.files := ∅; Server.written := 0 |};
               Server.collection := [] |})) = 200.
Proof.
  apply (proj2 (proj2 (upload_status_classes
           {| Server.now := 1763578360378; Server.salt := 911074405;
              Server.create_reply := Store.Assigned "r1" 1763578360400;
              Server.runtime := Derived.sample_runtime |}
           {| Server.req_part :=
                Some {| Server.fieldname := "image";
                        Server.originalname := "cat.png";
                        Server.mimetype := "image/png";
                        Server.size := 5242880 |} |}
           {| Server.fs := {| Server.files := ∅; Server.written := 0 |};
              Server.collection := [] |}))).
  eexists _, "r1"%string, 1763578360400%N.
  split; [reflexivity|]. split; [|reflexivity].
  split; [discriminate|]. split; [reflexivity|].
  split; [right; right; left; reflexivity|].
  split; [left; reflexivity | split; reflexivity].
Defined.

(** X5. What multer does with a part comes in a fixed order. A part
    without a file name is passed over and the route answers 400 in
    JSON. A named part in another field is refused with
    [LIMIT_UNEXPECTED_FILE]; in the [image] field, a type outside the
    allow-list is refused with the filter's error; an allowed type whose
    file can be created but whose body is longer than 10 MiB is refused
    with [LIMIT_FILE_SIZE]. Each refusal is answered by Express's final
    handler, with status 500 and its error page, not with the JSON
    object of the route. A part that passes is answered by the route, in
    JSON. *)
Theorem multer_refusals_in_order
    (e : Server.Env) (part : Server.Part) (w : Server.World) :
  let req := {| Server.req_part := Some part |} in
  let given := snd (Server.single Server.upload "image" e req (Server.fs w)) in
  let r := snd (Server.post_upload e req w) in
  (Server.originalname part = EmptyString ->
   given = inr None /\ Server.status r = 400
   /\ exists j, Server.body r = Server.Json j)
  /\ (Server.originalname part <> EmptyString ->
      Server.fieldname part <> "image"%string ->
      (exists err, given = inl err
                   /\ Js.err_code err = Some "LIMIT_UNEXPECTED_FILE"%string)
      /\ r = {| Server.status := 500; Server.body := Server.ErrorPage |})
  /\ (Server.originalname part <> EmptyString ->
      Server.fieldname part = "image"%string ->
      ~ Ref.allowed_mime (Server.mimetype part) ->
      given = inl (Js.new_Error
                     "Invalid file type. Only JPG, PNG, and GIF are allowed.")
      /\ r = {| Server.status := 500; Server.body := Server.ErrorPage |})
  /\ (Server.originalname part <> EmptyString ->
      Server.fieldname part = "image"%string ->
      Ref.allowed_mime (Server.mimetype part) ->
      Derived.writable e part ->
      (10 * 1024 * 1024 < Server.size part)%N ->
      (exists err, given = inl err
                   /\ Js.err_code err = Some "LIMIT_FILE_SIZE"%string)
      /\ r = {| Server.status := 500; Server.body := Server.ErrorPage |})
  /\ (Derived.storable e part -> exists j, Server.body r = Server.Json j).
Proof.
  cbv zeta.
  destruct (String.eqb_spec (Server.originalname part) EmptyString) as [Hn | Hn].
  { rewrite post_upload_nameless by assumption.
    split; [|repeat split; intros; try contradiction;
             match goal with H : Derived.storable _ _ |- _ =>
               destruct H as (H' & _); contradiction end].
    intros _. split; [|split; [reflexivity | eexists; reflexivity]].
    unfold Server.single. cbn [Server.req_part]. rewrite Hn. reflexivity. }
  split; [intros; contradiction|].
  destruct (post_upload_cases e part w Hn)
    as [(Hf & -> & ->) | [(Hf & Hm & -> & ->) | [(Hf & Hm & Hw & _ & ->)
       | [(Hf & Hm & Hw & Hl & -> & ->)
         | [(Hst & msg & Hr & ->) | (Hst & i & t & Hr & ->)]]]]];
    cbn [snd].
  - split; [intros _ _; split; [eexists; split; reflexivity | reflexivity]|].
    split; [intros _ Hf'; contradiction|].
    split; [intros _ Hf'; contradiction|].
    intros (_ & Hf' & _). contradiction.
  - split; [intros _ Hf'; contradiction|].
    split; [intros _ _ _; split; reflexivity|].
    split; [intros _ _ Hm'; contradiction|].
    intros (_ & _ & Hm' & _). contradiction.
  - split; [intros _ Hf'; contradiction|].
    split; [intros _ _ Hm'; contradiction|].
    split; [intros _ _ _ Hw'; contradiction|].
    intros (_ & _ & _ & _ & Hw'). contradiction.
  - split; [intros _ Hf'; contradiction|].
    split; [intros _ _ Hm'; contradiction|].
    split; [intros _ _ _ _ _; split; [eexists; split; reflexivity | reflexivity]|].
    intros (_ & _ & _ & Hl' & _). contradiction.
  - pose proof Hst as (_ & Hf & Hm & Hl & _).
    split; [intros _ Hf'; contradiction|].
    split; [intros _ _ Hm'; contradiction|].
    split; [intros _ _ _ _ Hs; destruct Hl as [Hl | [Hl _]]; lia|].
    intros _. eexists. reflexivity.
  - pose proof Hst as (_ & Hf & Hm & Hl & _).
    split; [intros _ Hf'; contradiction|].
    split; [intros _ _ Hm'; contradiction|].
    split; [intros _ _ _ _ Hs; destruct Hl as [Hl | [Hl _]]; lia|].
    intros _. eexists. reflexivity.
Qed.

Lemma multer_refusals_in_order_witness :
  snd (Server.post_upload
         {| Server.now := 1763578360378; Server.salt := 911074405;
            Server.create_reply := Store.Assigned "r1" 1763578360400;
            Server.runtime := Derived.sample_runtime |}
         {| Server.req_part :=
              Some {| Server.fieldname := "photo";
                      Server.originalname := "dump.txt";
                      Server.mimetype := "text/plain";
                      Server.size := 10485761 |} |}
         {| Server.fs := {| Server.files := ∅; Server.written := 0 |};
            Server.collection := [] |})
  = {| Server.status := 500; Server.body := Server.ErrorPage |}.
Proof.
  refine (proj2 (proj1 (proj2 (multer_refusals_in_order
                  {| Server.now := 1763578360378; Server.salt := 911074405;
                     Server.create_reply := Store.Assigned "r1" 1763578360400;
                     Server.runtime := Derived.sample_runtime |}
                  {| Server.fieldname := "photo";
                     Server.originalname := "dump.txt";
                     Server.mimetype := "text/plain";
                     Server.size := 10485761 |}
                  {| Server.fs := {| Server.files := ∅; Server.written := 0 |};
                     Server.collection := [] |})) _ _)).
  - discriminate.
  - discriminate.
Defined.

(** X6. One request touches at most one file and never an existing
    record: files of any other name stay as they are, the count of bytes
    written does not decrease, and the collection keeps all its records
    in place, with at most one appended. *)
Theorem upload_touches_one_file
    (e : Server.Env) (req : Server.Request) (w : Server.World) :
  let out := fst (Server.post_upload e req w) in
  (forall k : string,
     (forall part, Server.req_part req = Some part ->
                   k <> Derived.stored_name e part) ->
     Server.files (Server.fs out) !! k = Server.files (Server.fs w) !! k)
  /\ (Server.written (Server.fs w) <= Server.written (Server.fs out))%N
  /\ exists extra,
       Server.collection out = Server.collection w ++ extra
       /\ (length extra <= 1)%nat.
Proof.
  cbv zeta. destruct req as [[part|]].
  - destruct (String.eqb_spec (Server.originalname part) EmptyString) as [Hn | Hn].
    { rewrite post_upload_nameless by assumption. cbn [fst].
      split; [reflexivity|]. split; [lia|].
      exists []. rewrite app_nil_r. split; [reflexivity | cbn; lia]. }
    destruct (post_upload_cases e part w Hn)
      as [(_ & _ & ->) | [(_ & _ & _ & ->) | [(_ & _ & _ & _ & ->)
         | [(_ & _ & _ & _ & _ & ->)
           | [(_ & msg & _ & ->) | (_ & i & t & _ & ->)]]]]];
      cbn [fst Server.fs Server.collection Server.removeFile Server.handleFile
           Server.files Server.written Server.req_part];
      (split; [intros k Hk; specialize (Hk part eq_refl) |
               split; [lia|]]);
      try reflexivity;
      try (exists []; rewrite app_nil_r; split; [reflexivity | cbn; lia]).
    + rewrite lookup_delete_ne, lookup_insert_ne by congruence. reflexivity.
    + rewrite lookup_insert_ne by congruence. reflexivity.
    + rewrite lookup_insert_ne by congruence. reflexivity.
    + eexists. split; [reflexivity | cbn; lia].
  - rewrite post_upload_no_part. cbn [fst]. split; [reflexivity|].
    split; [lia|]. exists []. rewrite app_nil_r. split; [reflexivity | cbn; lia].
Qed.

Lemma upload_touches_one_file_witness :
  Server.files
    (Server.fs
       (fst (Server.post_upload
               {| Server.now := 1763578360378; Server.salt := 911074405;
                  Server.create_reply := Store.Assigned "r1" 1763578360400;
                  Server.runtime := Derived.sample_runtime |}
               {| Server.req_part :=
                    Some {| Server.fieldname := "image";
                            Server.originalname := "cat.png";
                            Server.mimetype := "image/png";
                            Server.size := 5242880 |} |}
               {| Server.fs :=
                    {| Server.files := <["1-1.png"%string := 7%N]> ∅;
                       Server.written := 7 |};
                  Server.collection := [] |})))
  !! "1-1.png"%string
  = (<["1-1.png"%string := 7%N]> ∅ : gmap string N) !! "1-1.png"%string.
Proof.
  refine (proj1 (upload_touches_one_file
           {| Server.now := 1763578360378; Server.salt := 911074405;
              Server.create_reply := Store.Assigned "r1" 1763578360400;
              Server.runtime := Derived.sample_runtime |}
           {| Server.req_part :=
                Some {| Server.fieldname := "image";
                        Server.originalname := "cat.png";
                        Server.mimetype := "image/png";
                        Server.size := 5242880 |} |}
           {| Server.fs :=
                {| Server.files := <["1-1.png"%string := 7%N]> ∅;
                   Server.written := 7 |};
              Server.collection := [] |}) "1-1.png"%string _).
  intros part [= <-]. vm_compute. discriminate.
Defined.

(** X7. A record is appended only for a file that was stored in full:
    when a request adds a record, the request carried a part of an
    allowed type, at most 10 MiB long, the upload directory holds a file
    of that length under the generated name, the record points to it and
    carries the client's file name and declared type, and the answer is
    200. *)
Theorem record_only_after_file
    (e : Server.Env) (req : Server.Request) (w : Server.World)
    (r : Store.ImageRecord) :
  Server.collection (fst (Server.post_upload e req w))
  = Server.collection w ++ [r] ->
  exists part,
    Server.req_part req = Some part
    /\ Ref.allowed_mime (Server.mimetype part)
    /\ (Server.size part <= 10 * 1024 * 1024)%N
    /\ Server.files (Server.fs (fst (Server.post_upload e req w)))
       !! Derived.stored_name e part = Some (Server.size part)
    /\ Store.location r = "/uploads/" +:+ Derived.stored_name e part
    /\ Store.name r = Server.originalname part
    /\ Store.mime_type r = Server.mimetype part
    /\ Server.status (snd (Server.post_upload e req w)) = 200.
Proof.
  assert (Hsame : forall l : list Store.ImageRecord, l = l ++ [r] -> False).
  { intros l H. apply (f_equal length) in H. rewrite length_app in H.
    cbn in H. lia. }
  destruct req as [[part|]].
  - destruct (String.eqb_spec (Server.originalname part) EmptyString) as [Hn | Hn].
    { rewrite post_upload_nameless by assumption. cbn [fst]. intros H.
      exfalso. exact (Hsame _ H). }
    destruct (post_upload_cases e part w Hn)
      as [(_ & _ & ->) | [(_ & _ & _ & ->) | [(_ & _ & _ & _ & ->)
         | [(_ & _ & _ & _ & _ & ->)
           | [(_ & msg & _ & ->) | (Hst & i & t & _ & ->)]]]]];
      cbn [fst snd Server.collection Server.fs]; intros H;
      try (exfalso; exact (Hsame _ H)).
    apply app_inv_head in H. injection H as <-.
    destruct Hst as (_ & _ & Hm & Hl & _).
    exists part.
    split; [reflexivity|]. split; [assumption|].
    split; [destruct Hl as [Hl | [Hl _]]; lia|].
    split; [unfold Server.handleFile; cbn [Server.files]; apply lookup_insert_eq|].
    repeat split.
  - rewrite post_upload_no_part. cbn [fst]. intros H.
    exfalso. exact (Hsame _ H).
Qed.

Lemma record_only_after_file_witness :
  exists part,
    Some {| Server.fieldname := "image"; Server.originalname := "cat.png";
            Server.mimetype := "image/png"; Server.size := 5242880 |}
    = Some part
    /\ Ref.allowed_mime (Server.mimetype part)
    /\ (Server.size part <= 10 * 1024 * 1024)%N.
Proof.
  destruct (record_only_after_file
              {| Server.now := 1763578360378; Server.salt := 911074405;
                 Server.create_reply := Store.Assigned "r1" 1763578360400;
                 Server.runtime := Derived.sample_runtime |}
              {| Server.req_part :=
                   Some {| Server.fieldname := "image";
                           Server.originalname := "cat.png";
                           Server.mimetype := "image/png";
                           Server.size := 5242880 |} |}
              {| Server.fs := {| Server.files := ∅; Server.written := 0 |};
                 Server.collection := [] |}
              {| Store.id := "r1"; Store.name := "cat.png";
                 Store.location :=
                   "/uploads/"
                   +:+ Storage.filename 1763578360378 911074405 "cat.png";
                 Store.mime_type := "image/png";
                 Store.created := 1763578360400;
                 Store.updated := 1763578360400 |}
              eq_refl)
    as (part & H1 & H2 & H3 & _).
  exists part. repeat split; assumption.
Defined.

(** X8. An oversized upload that passes the filter (a named part in the
    [image] field, of an allowed type, more than 10 MiB, its file
    created) leaves the upload directory without a file of the generated
    name: a directory that had none is exactly what it was, and a file
    already stored under that name is gone. *)
Theorem oversized_upload_directory
    (e : Server.Env) (part : Server.Part) (w : Server.World) :
  Server.originalname part <> EmptyString ->
  Server.fieldname part = "image"%string ->
  Ref.allowed_mime (Server.mimetype part) ->
  Derived.writable e part ->
  (10 * 1024 * 1024 < Server.size part)%N ->
  let out := fst (Server.post_upload e {| Server.req_part := Some part |} w) in
  Server.files (Server.fs out)
  = delete (Derived.stored_name e part) (Server.files (Server.fs w))
  /\ Server.files (Server.fs out) !! Derived.stored_name e part = None
  /\ (Server.files (Server.fs w) !! Derived.stored_name e part = None ->
      Server.files (Server.fs out) = Server.files (Server.fs w)).
Proof.
  intros Hn Hf Hm Hw Hs. cbv zeta.
  destruct (post_upload_cases e part w Hn)
    as [(Hf' & _) | [(_ & Hm' & _) | [(_ & _ & Hw' & _)
       | [(_ & _ & _ & _ & _ & ->)
         | [((_ & _ & _ & Hl & _) & _) | ((_ & _ & _ & Hl & _) & _)]]]]];
    try contradiction;
    try (destruct Hl as [Hl | [Hl _]]; lia).
  cbn [fst Server.fs Server.removeFile Server.handleFile Server.files].
  split; [apply delete_insert_eq|].
  split; [apply lookup_delete_eq|].
  intros Hfresh. now apply delete_insert_id.
Qed.

Lemma oversized_upload_directory_witness :
  let e := {| Server.now := 1763578360378; Server.salt := 911074405;
              Server.create_reply := Store.Assigned "r1" 1763578360400;
              Server.runtime := Derived.sample_runtime |} in
  let part := {| Server.fieldname := "image"; Server.originalname := "huge.png";
                 Server.mimetype := "image/png"; Server.size := 10485761 |} in
  let d := {| Server.files := <["1-1.png"%string := 7%N]> ∅;
              Server.written := 7 |} in
  Server.files
    (Server.fs
       (fst (Server.post_upload e {| Server.req_part := Some part |}
               {| Server.fs := d; Server.collection := [] |})))
  = Server.files d.
Proof.
  cbv zeta.
  refine (match oversized_upload_directory
                  {| Server.now := 1763578360378; Server.salt := 911074405;
                     Server.create_reply := Store.Assigned "r1" 1763578360400;
                     Server.runtime := Derived.sample_runtime |}
                  {| Server.fieldname := "image";
                     Server.originalname := "huge.png";
                     Server.mimetype := "image/png";
                     Server.size := 10485761 |}
                  {| Server.fs :=
                       {| Server.files := <["1-1.png"%string := 7%N]> ∅;
                          Server.written := 7 |};
                     Server.collection := [] |}
                  _ eq_refl _ _ eq_refl with
          | conj _ (conj _ C) => C _
          end).
  - discriminate.
  - right. right. left. reflexivity.
  - split; reflexivity.
  - vm_compute. reflexivity.
Defined.

(** X9. The pipeline keeps every record's location pointing at a stored
    file: if each location is [/uploads/] followed by the name of a file
    of the upload directory, it is so again after any request, provided
    a part of 10 MiB or more does not get the name of a file already
    stored. *)
Theorem locations_keep_resolving
    (e : Server.Env) (req : Server.Request) (w : Server.World) :
  Derived.resolves w ->
  (forall part,
     Server.req_part req = Some part ->
     (10 * 1024 * 1024 <= Server.size part)%N ->
     Server.files (Server.fs w) !! Derived.stored_name e part = None) ->
  Derived.resolves (fst (Server.post_upload e req w)).
Proof.
  intros Hw Hfresh.
  assert (Hins : forall fname n,
    Forall (fun r =>
              exists f, Store.location r = "/uploads/" +:+ f
                        /\ is_Some (<[fname := n]> (Server.files (Server.fs w)) !! f))
           (Server.collection w)).
  { intros fname n. eapply Forall_impl; [exact Hw|].
    intros r (f & Hl & Hs). exists f. split; [exact Hl|].
    apply lookup_insert_is_Some'. now right. }
  destruct req as [[part|]].
  - destruct (String.eqb_spec (Server.originalname part) EmptyString) as [Hn | Hn].
    { rewrite post_upload_nameless by assumption. exact Hw. }
    specialize (Hfresh part eq_refl).
    destruct (post_upload_cases e part w Hn)
      as [(_ & _ & ->) | [(_ & _ & _ & ->) | [(_ & _ & _ & _ & ->)
         | [(_ & _ & _ & Hl & _ & ->)
           | [(_ & msg & _ & ->) | (_ & i & t & _ & ->)]]]]];
      cbn [fst]; try exact Hw; unfold Derived.resolves;
      cbn [Server.fs Server.collection Server.removeFile Server.handleFile
           Server.files].
    + rewrite delete_insert_id; [exact Hw|]. apply Hfresh.
      destruct (N.le_gt_cases (10 * 1024 * 1024) (Server.size part))
        as [H | H]; [exact H|].
      exfalso. apply Hl. left. lia.
    + apply Hins.
    + apply Forall_app. split; [apply Hins|].
      constructor; [|constructor].
      exists (Derived.stored_name e part). split; [reflexivity|].
      rewrite lookup_insert_eq. eauto.
  - rewrite post_upload_no_part. exact Hw.
Qed.

Lemma locations_keep_resolving_witness :
  let r1 := {| Store.id := "a"; Store.name := "first.png";
               Store.location := "/uploads/1-1.png";
               Store.mime_type := "image/png";
               Store.created := 100; Store.updated := 100 |} in
  Derived.resolves
    (fst (Server.post_upload
            {| Server.now := 1763578360378; Server.salt := 911074405;
               Server.create_reply := Store.Assigned "r1" 1763578360400;
               Server.runtime := Derived.sample_runtime |}
            {| Server.req_part :=
                 Some {| Server.fieldname := "image";
                         Server.originalname := "huge.png";
                         Server.mimetype := "image/png";
                         Server.size := 10485761 |} |}
            {| Server.fs :=
                 {| Server.files := <["1-1.png"%string := 7%N]> ∅;
                    Server.written := 7 |};
               Server.collection := [r1] |})).
Proof.
  cbv zeta. apply locations_keep_resolving.
  - constructor; [|constructor].
    exists "1-1.png"%string. split; [reflexivity|].
    exists 7%N. apply lookup_insert_eq.
  - intros part [= <-] _. vm_compute. reflexivity.
Defined.

(** ** Further properties of the listing route *)

(** X10. [GET /api/images] answers 200 or 500 and nothing else; it
    answers 500 exactly when the store call fails, with [error] "Failed
    to fetch images" and [message] the failure's message. *)
Theorem listing_failure_is_500 (fault : option string) (w : Server.World) :
  let r := Server.get_api_images fault w in
  (Server.status r = 200 \/ Server.status r = 500)
  /\ (Server.status r = 500 <-> fault <> None)
  /\ (forall msg,
        fault = Some msg ->
        r = Server.json 500
              (Js.JObj [("error", Js.JStr "Failed to fetch images");
                        ("message", Js.JStr msg)]%string)).
Proof.
  cbv zeta. destruct fault as [m|].
  - split; [right; reflexivity|]. split.
    + split; [discriminate | reflexivity].
    + intros msg [= <-]. reflexivity.
  - split; [left; reflexivity|]. split.
    + split; [discriminate | congruence].
    + discriminate.
Qed.

Lemma listing_failure_is_500_witness :
  Server.get_api_images (Some "Failed to fetch"%string)
    {| Server.fs := {| Server.files := ∅; Server.written := 0 |};
       Server.collection := [] |}
  = Server.json 500
      (Js.JObj [("error", Js.JStr "Failed to fetch images");
                ("message", Js.JStr "Failed to fetch")]%string).
Proof.
  apply (proj2 (proj2 (listing_failure_is_500 (Some "Failed to fetch"%string)
           {| Server.fs := {| Server.files := ∅; Server.written := 0 |};
              Server.collection := [] |}))).
  reflexivity.
Defined.

(** ** Further properties of the gallery script *)

Section GalleryMore.

Import Ref Gallery Derived.

Variable formatDate : N -> string.

Lemma loadImages_absent r (doc : gmap string string) :
  doc !! "gallery"%string = None -> loadImages formatDate r doc = doc.
Proof.
  intros H. unfold loadImages, displayImages, show_error.
  destruct (fetched r); rewrite H; reflexivity.
Qed.

Lemma loadImages_present r (doc : gmap string string) old :
  doc !! "gallery"%string = Some old ->
  loadImages formatDate r doc
  = <["gallery"%string := gallery_content formatDate r]> doc.
Proof.
  intros H. unfold loadImages, displayImages, show_error, gallery_content.
  destruct (fetched r) as [[|i l]|]; rewrite H; reflexivity.
Qed.

Lemma decode_plain c rest :
  c <> "&"%char ->
  decode_references None (String c rest)
  = String c (decode_references None rest).
Proof.
  intros H. cbn [decode_references].
  destruct (Ascii.eqb_spec c "&"); [contradiction | reflexivity].
Qed.

Lemma escapeHtml_decodes_bounded n text :
  (String.length text <= n)%nat ->
  decode_references None (escapeHtml text) = text.
Proof.
  revert text. induction n as [|n IH]; intros text Hn.
  - destruct text; [reflexivity | cbn in Hn; lia].
  - destruct text as [|c rest]; [reflexivity|].
    cbn [String.length] in Hn.
    pose proof (IH rest ltac:(lia)) as IHr.
    cbn [escapeHtml].
    destruct (Ascii.eqb_spec c "&") as [->|Hamp].
    { change (decode_references None ("&amp;" +:+ escapeHtml rest))
        with (String "&" (decode_references None (escapeHtml rest))).
      now rewrite IHr. }
    destruct (Ascii.eqb_spec c "<") as [->|Hlt].
    { change (decode_references None ("&lt;" +:+ escapeHtml rest))
        with (String "<" (decode_references None (escapeHtml rest))).
      now rewrite IHr. }
    destruct (Ascii.eqb_spec c ">") as [->|Hgt].
    { change (decode_references None ("&gt;" +:+ escapeHtml rest))
        with (String ">" (decode_references None (escapeHtml rest))).
      now rewrite IHr. }
    assert (Hplain : decode_references None (String c (escapeHtml rest))
                     = String c rest).
    { rewrite decode_plain by assumption. now rewrite IHr. }
    destruct rest as [|d rest']; [exact Hplain|].
    destruct (Ascii.eqb_spec c "194") as [->|]; cbn [andb]; [|exact Hplain].
    destruct (Ascii.eqb_spec d "160") as [->|]; [|exact Hplain].
    cbn [String.length] in Hn.
    change (decode_references None ("&nbsp;" +:+ escapeHtml rest'))
      with (String "194" (String "160"
              (decode_references None (escapeHtml rest')))).
    now rewrite (IH rest' ltac:(lia)).
Qed.

Lemma rendered_text_without_tags s :
  Str.contains "<" s = false -> rendered_text s = s.
Proof.
  unfold rendered_text, Str.contains, Str.chars.
  induction s as [|c s IH]; [reflexivity|].
  cbn [list_ascii_of_string existsb text_outside_tags].
  rewrite Ascii.eqb_sym.
  destruct (Ascii.eqb c "<"); cbn [orb]; [discriminate|].
  intros H. now rewrite IH.
Qed.

End GalleryMore.

(** X12. [loadImages] writes to the gallery container only: every other
    element keeps its content, and a page without a gallery container is
    left as it is (no container is created), however the API call
    ends. *)
Theorem loadImages_only_touches_gallery
    (formatDate : N -> string) (r : Gallery.FetchResult)
    (doc : gmap string string) :
  (forall k : string,
     k <> "gallery"%string ->
     Gallery.loadImages formatDate r doc !! k = doc !! k)
  /\ (doc !! "gallery"%string = None ->
      Gallery.loadImages formatDate r doc = doc).
Proof.
  split; [|apply loadImages_absent].
  intros k Hk. destruct (doc !! "gallery"%string) as [old|] eqn:E.
  - rewrite (loadImages_present formatDate r doc old E).
    now rewrite lookup_insert_ne.
  - now rewrite loadImages_absent.
Qed.

(** X13. The last load wins: loading twice shows what the second load
    alone would show, whatever the first one had put in the page. *)
Theorem loadImages_last_load_wins
    (formatDate : N -> string) (r1 r2 : Gallery.FetchResult)
    (doc : gmap string string) :
  Gallery.loadImages formatDate r2 (Gallery.loadImages formatDate r1 doc)
  = Gallery.loadImages formatDate r2 doc.
Proof.
  destruct (doc !! "gallery"%string) as [old|] eqn:E.
  - rewrite (loadImages_present formatDate r1 doc old E).
    rewrite (loadImages_present formatDate r2 _
               (Derived.gallery_content formatDate r1))
      by apply lookup_insert_eq.
    rewrite (loadImages_present formatDate r2 doc old E).
    apply insert_insert_eq.
  - rewrite (loadImages_absent formatDate r1 doc E).
    reflexivity.
Qed.

(** X14. A response with a 2xx status and an array is never shown as an
    error: an empty array shows the paragraph "No images uploaded yet.",
    a non-empty one the cards of its records, one after the other in the
    order of the array. *)
Theorem successful_load_shows_records
    (formatDate : N -> string) (code : Z) (images : list Store.ImageRecord)
    (doc : gmap string string) (old : string) :
  200 <= code <= 299 ->
  doc !! "gallery"%string = Some old ->
  exists content,
    Gallery.loadImages formatDate (Gallery.Responded code (Some images)) doc
    !! "gallery"%string = Some content
    /\ content <> Gallery.error_markup
    /\ (images = [] ->
        content = "<p>No images uploaded yet.</p>"%string
        /\ Gallery.rendered_text content = "No images uploaded yet."%string)
    /\ (images <> [] ->
        content = Str.join (map (Gallery.card formatDate) images)).
Proof.
  intros Hc Hg.
  rewrite (loadImages_present formatDate _ doc old Hg), lookup_insert_eq.
  eexists. split; [reflexivity|].
  unfold Derived.gallery_content. cbn [Gallery.fetched]. unfold Gallery.ok.
  replace ((200 <=? code) && (code <=? 299)) with true
    by (symmetry; apply andb_true_iff; split; apply Z.leb_le; lia).
  cbn [negb]. destruct images as [|i l].
  - split; [discriminate|]. split; [|contradiction]. intros _. split; reflexivity.
  - split; [|split; [discriminate | reflexivity]].
    cbn [map Str.join]. unfold Gallery.card. discriminate.
Qed.

Lemma successful_load_shows_records_witness :
  exists content,
    Gallery.loadImages (fun _ => "Nov 19, 2025, 06:52 PM"%string)
      (Gallery.Responded 200 (Some []))
      (<["gallery"%string := "<p>Loading...</p>"%string]> ∅)
    !! "gallery"%string = Some content
    /\ content <> Gallery.error_markup.
Proof.
  destruct (successful_load_shows_records
              (fun _ => "Nov 19, 2025, 06:52 PM"%string) 200 []
              (<["gallery"%string := "<p>Loading...</p>"%string]> ∅)
              "<p>Loading...</p>") as (content & H1 & H2 & _).
  - lia.
  - apply lookup_insert_eq.
  - exists content. split; assumption.
Defined.

(** X15. What [escapeHtml] returns is inert as markup text: it holds no
    angle bracket, each of its ampersands starts one of the references
    [&amp;], [&lt;], [&gt;], [&nbsp;], and so it displays with no tag
    taken out of it. *)
Theorem escapeHtml_is_inert (text : string) :
  Str.contains "<" (Gallery.escapeHtml text) = false
  /\ Str.contains ">" (Gallery.escapeHtml text) = false
  /\ Ref.amps_are_references (Gallery.escapeHtml text) = true
  /\ Gallery.rendered_text (Gallery.escapeHtml text) = Gallery.escapeHtml text.
Proof.
  destruct (escapeHtml_output text) as (H1 & H2 & H3).
  repeat split; try assumption.
  now apply rendered_text_without_tags.
Qed.

(** X16. [escapeHtml] loses nothing: reading the references of its
    result back gives the text it was given, so two different names are
    never shown alike. *)
Theorem escapeHtml_round_trip (text text' : string) :
  Derived.decode_references None (Gallery.escapeHtml text) = text
  /\ (Gallery.escapeHtml text = Gallery.escapeHtml text' -> text = text').
Proof.
  split.
  - apply (escapeHtml_decodes_bounded (String.length text)). lia.
  - intros H.
    rewrite <- (escapeHtml_decodes_bounded (String.length text) text (le_n _)).
    rewrite <- (escapeHtml_decodes_bounded (String.length text') text' (le_n _)).
    now rewrite H.
Qed.

(** X17. The image of a card is always addressed from the site root: the
    value of its [src] attribute starts with a slash, and it is the
    record's location itself when that starts with a slash, as the
    locations written by the upload route do. *)
Theorem card_image_is_root_relative
    (formatDate : N -> string) (image : Store.ImageRecord)
    (e : Server.Env) (part : Server.Part) (new_id : string) (stamp : N) :
  (exists rest,
     Gallery.card formatDate image
     = Derived.card_head +:+ String "/" rest)
  /\ (Str.startsWith (Store.location image) "/" = true ->
      exists rest,
        Gallery.card formatDate image
        = Derived.card_head +:+ Store.location image +:+ Str.dq +:+ rest)
  /\ exists rest,
       Gallery.card formatDate (Derived.created_record e part new_id stamp)
       = Derived.card_head +:+ "/uploads/" +:+ Derived.stored_name e part
         +:+ Str.dq +:+ rest.
Proof.
  split; [|split].
  - unfold Gallery.card.
    destruct (Store.location image) as [|c l] eqn:E.
    + eexists. reflexivity.
    + cbn [Str.startsWith]. rewrite Ascii.eqb_sym.
      destruct (Ascii.eqb_spec c "/") as [->|]; cbn [andb];
        eexists; reflexivity.
  - intros H. unfold Gallery.card. rewrite H.
    eexists. unfold Derived.card_head.
    rewrite !append_assoc. reflexivity.
  - unfold Gallery.card, Derived.created_record. cbn [Store.location].
    change (Str.startsWith ("/uploads/" +:+ Derived.stored_name e part) "/")
      with true. cbn iota.
    eexists. unfold Derived.card_head. rewrite !append_assoc. reflexivity.
Qed.

Lemma card_image_is_root_relative_witness :
  exists rest,
    Gallery.card (fun _ => "Nov 19, 2025, 06:52 PM"%string)
      {| Store.id := "r1"; Store.name := "cat.png";
         Store.location := "/uploads/1763578360378-911074405.png";
         Store.mime_type := "image/png";
         Store.created := 1763578360400; Store.updated := 1763578360400 |}
    = Derived.card_head +:+ "/uploads/1763578360378-911074405.png"
      +:+ Str.dq +:+ rest.
Proof.
  apply (proj1 (proj2 (card_image_is_root_relative
                         (fun _ => "Nov 19, 2025, 06:52 PM"%string)
                         {| Store.id := "r1"; Store.name := "cat.png";
                            Store.location := "/uploads/1763578360378-911074405.png";
                            Store.mime_type := "image/png";
                            Store.created := 1763578360400;
                            Store.updated := 1763578360400 |}
                         {| Server.now := 1763578360378; Server.salt := 911074405;
                            Server.create_reply := Store.Assigned "r1" 1763578360400;
                            Server.runtime := Derived.sample_runtime |}
                         {| Server.fieldname := "image";
                            Server.originalname := "cat.png";
                            Server.mimetype := "image/png";
                            Server.size := 5242880 |}
                         "r1" 1763578360400))).
  reflexivity.
Defined.

Lemma loadImages_only_touches_gallery_witness :
  Gallery.loadImages (fun _ => EmptyString) Gallery.NetworkError
    (<["title"%string := "Gallery"%string]> ∅)
  = <["title"%string := "Gallery"%string]> ∅.
Proof.
  apply (proj2 (loadImages_only_touches_gallery
                  (fun _ => EmptyString) Gallery.NetworkError
                  (<["title"%string := "Gallery"%string]> ∅))).
  vm_compute. reflexivity.
Defined.

Lemma escapeHtml_round_trip_witness : "a<b"%string = "a<b"%string.
Proof.
  apply (proj2 (escapeHtml_round_trip "a<b" "a<b")). reflexivity.
Defined.

(** ** The readiness probe *)

(** X19. The readiness probe of the server never lets a failure of the
    store escape: it writes one console line, "PocketBase images
    collection is ready" when the store answers and otherwise a warning
    that carries the failure's message, whatever its status. *)
Theorem readiness_probe_only_warns (answer : option Js.Error) :
  let out := Setup.readiness_probe answer in
  snd out = None
  /\ length (fst out) = 1%nat
  /\ (answer = None ->
      fst out
      = [Setup.MkLine Setup.Log ["PocketBase images collection is ready"%string]])
  /\ (forall error,
        answer = Some error ->
        fst out
        = [Setup.MkLine Setup.Warn
             ["PocketBase collection not ready yet:"%string;
              Js.err_message error]]).
Proof.
  cbv zeta. destruct answer as [error|]; cbn.
  - repeat split; try discriminate. intros error' [= <-]. reflexivity.
  - repeat split; discriminate.
Qed.

Lemma readiness_probe_only_warns_witness :
  fst (Setup.readiness_probe
         (Some {| Js.err_name := "ClientResponseError"; Js.err_code := None;
                  Js.err_message := "The requested resource wasn't found.";
                  Js.err_status := Some 404 |}))
  = [Setup.MkLine Setup.Warn
       ["PocketBase collection not ready yet:"%string;
        "The requested resource wasn't found."%string]].
Proof.
  apply (proj2 (proj2 (proj2 (readiness_probe_only_warns
           (Some {| Js.err_name := "ClientResponseError"; Js.err_code := None;
                    Js.err_message := "The requested resource wasn't found.";
                    Js.err_status := Some 404 |}))))
           {| Js.err_name := "ClientResponseError"; Js.err_code := None;
              Js.err_message := "The requested resource wasn't found.";
              Js.err_status := Some 404 |}).
  reflexivity.
Defined.

(** ** Extensions and collisions *)

Section CollisionFacts.

Import Ref Server Derived.

Lemma no_slash_chars s :
  Str.contains "/" s = false -> Forall not_slash (Str.chars s).
Proof.
  unfold Str.contains. intros H. apply Forall_forall. intros c Hin ->.
  apply list_elem_of_In in Hin.
  assert (existsb (Ascii.eqb "/") (Str.chars s) = true); [|congruence].
  apply existsb_exists. exists "/"%char. split; [assumption | reflexivity].
Qed.

Lemma no_dot_chars s :
  Str.contains "." s = false -> Forall not_dot (Str.chars s).
Proof.
  unfold Str.contains. intros H. apply Forall_forall. intros c Hin ->.
  apply list_elem_of_In in Hin.
  assert (existsb (Ascii.eqb ".") (Str.chars s) = true); [|congruence].
  apply existsb_exists. exists "."%char. split; [assumption | reflexivity].
Qed.

Lemma extname_chars_dotless p :
  Forall not_dot p -> Path.extname_chars p = [].
Proof.
  intros H. unfold Path.extname_chars.
  rewrite loop_keeps_startDot; [reflexivity | now apply Forall_rev].
Qed.

End CollisionFacts.

(** X20. Which extension is kept: of a last component [stem.tail] (no
    dot in [tail], [stem] not empty, the component not [".."]) the
    storage filename ends in [.tail]; a name that starts with its only
    dot, and a name without any dot, give a storage filename without
    extension. *)
Theorem filename_keeps_last_extension
    (now salt : N) (stem tail originalname : string) :
  (stem <> EmptyString ->
   Str.contains "/" stem = false ->
   Str.contains "/" tail = false -> Str.contains "." tail = false ->
   stem <> "."%string \/ tail <> EmptyString ->
   Storage.filename now salt (stem +:+ "." +:+ tail)
   = Storage.uniqueSuffix now salt +:+ "." +:+ tail)
  /\ (Str.contains "/" tail = false -> Str.contains "." tail = false ->
      Storage.filename now salt ("." +:+ tail) = Storage.uniqueSuffix now salt)
  /\ (Str.contains "." originalname = false ->
      Storage.filename now salt originalname = Storage.uniqueSuffix now salt).
Proof.
  assert (Hempty : forall l, l = [] ->
            Storage.uniqueSuffix now salt +:+ Str.of_chars l
            = Storage.uniqueSuffix now salt).
  { intros l ->. apply chars_inj. rewrite chars_append. cbn. now rewrite app_nil_r. }
  split; [|split].
  - intros Hne Hs Ht Hd Hdd. unfold Storage.filename, Path.extname. f_equal.
    apply chars_inj. rewrite chars_of_chars, !chars_append.
    apply no_slash_chars in Hs, Ht. apply no_dot_chars in Hd.
    assert (Hc : Forall Ref.not_slash
                   (Str.chars stem ++ Str.chars "." ++ Str.chars tail)).
    { apply Forall_app. split; [assumption|].
      constructor; [discriminate | assumption]. }
    assert (Hn : Str.chars stem ++ Str.chars "." ++ Str.chars tail <> []).
    { destruct stem; [contradiction | cbn; discriminate]. }
    pose proof (extname_chars_component [] _ [] (or_introl eq_refl)
                  Hn Hc (List.Forall_nil _)) as H.
    rewrite app_nil_r in H. cbn [app] in H. rewrite H.
    unfold Ref.ext_of_component.
    change (Str.chars "." ++ Str.chars tail)
      with (Path.CHAR_DOT :: Str.chars tail).
    rewrite split_last_dot_app by assumption.
    destruct (Str.chars stem) as [|c [|c' l]] eqn:Es.
    + destruct stem; [contradiction | discriminate].
    + destruct (Str.chars tail) as [|x t] eqn:Et; [|reflexivity].
      destruct (Ascii.eqb_spec c Path.CHAR_DOT) as [->|]; [|reflexivity].
      exfalso. destruct Hdd as [Hdd | Hdd]; apply Hdd; apply chars_inj;
        [rewrite Es | rewrite Et]; reflexivity.
    + reflexivity.
  - intros Ht Hd. unfold Storage.filename, Path.extname. apply Hempty.
    rewrite chars_append.
    apply no_slash_chars in Ht. apply no_dot_chars in Hd.
    assert (Hc : Forall Ref.not_slash (Str.chars "." ++ Str.chars tail)).
    { constructor; [discriminate | assumption]. }
    assert (Hn : Str.chars "." ++ Str.chars tail <> []) by (cbn; discriminate).
    pose proof (extname_chars_component [] _ [] (or_introl eq_refl)
                  Hn Hc (List.Forall_nil _)) as H.
    rewrite app_nil_r in H. cbn [app] in H. rewrite H.
    unfold Ref.ext_of_component.
    change (Str.chars "." ++ Str.chars tail)
      with ([] ++ Path.CHAR_DOT :: Str.chars tail).
    rewrite split_last_dot_app by assumption. reflexivity.
  - intros Hd. unfold Storage.filename, Path.extname. apply Hempty.
    apply extname_chars_dotless. now apply no_dot_chars.
Qed.

Lemma filename_keeps_last_extension_witness :
  Storage.filename 1763578360378 911074405 "archive.tar.gz"
  = Storage.uniqueSuffix 1763578360378 911074405 +:+ "." +:+ "gz".
Proof.
  apply (proj1 (filename_keeps_last_extension 1763578360378 911074405
                  "archive.tar" "gz" EmptyString)).
  - discriminate.
  - reflexivity.
  - reflexivity.
  - reflexivity.
  - left. discriminate.
Defined.

(** X21. Two uploads that are stored (named parts in the [image] field,
    of an allowed type, within the limit, their files created) and
    differ in the millisecond or in the random draw are stored side by
    side: after both requests each generated name holds the whole body
    of its own upload. *)
Theorem distinct_draws_keep_both_files
    (e1 e2 : Server.Env) (part1 part2 : Server.Part) (w : Server.World) :
  Derived.storable e1 part1 ->
  Derived.storable e2 part2 ->
  Server.now e1 <> Server.now e2 \/ Server.salt e1 <> Server.salt e2 ->
  let w1 := fst (Server.post_upload e1 {| Server.req_part := Some part1 |} w) in
  let w2 := fst (Server.post_upload e2 {| Server.req_part := Some part2 |} w1) in
  Server.files (Server.fs w2) !! Derived.stored_name e1 part1
  = Some (Server.size part1)
  /\ Server.files (Server.fs w2) !! Derived.stored_name e2 part2
     = Some (Server.size part2).
Proof.
  intros Hst1 Hst2 Hne. cbv zeta.
  destruct (post_upload_stored e2 part2
              (fst (Server.post_upload e1 {| Server.req_part := Some part1 |} w))
              Hst2) as [-> _].
  destruct (post_upload_stored e1 part1 w Hst1) as [-> _].
  unfold Server.handleFile. cbn [Server.files].
  assert (Hd : Derived.stored_name e2 part2 <> Derived.stored_name e1 part1).
  { unfold Derived.stored_name. intros H.
    apply filename_eq_inv in H as (Hn & Hsalt & _).
    destruct Hne as [Hne | Hne]; apply Hne; congruence. }
  split.
  - rewrite lookup_insert_ne by exact Hd. apply lookup_insert_eq.
  - apply lookup_insert_eq.
Qed.

Lemma distinct_draws_keep_both_files_witness :
  let e1 := {| Server.now := 1763578360378; Server.salt := 911074405;
               Server.create_reply := Store.Assigned "r1" 1763578360400;
               Server.runtime := Derived.sample_runtime |} in
  let e2 := {| Server.now := 1763578360378; Server.salt := 5;
               Server.create_reply := Store.Assigned "r2" 1763578360401;
               Server.runtime := Derived.sample_runtime |} in
  let part1 := {| Server.fieldname := "image"; Server.originalname := "cat.png";
                  Server.mimetype := "image/png"; Server.size := 11 |} in
  let part2 := {| Server.fieldname := "image"; Server.originalname := "dog.png";
                  Server.mimetype := "image/png"; Server.size := 22 |} in
  let w := {| Server.fs := {| Server.files := ∅; Server.written := 0 |};
              Server.collection := [] |} in
  let w1 := fst (Server.post_upload e1 {| Server.req_part := Some part1 |} w) in
  let w2 := fst (Server.post_upload e2 {| Server.req_part := Some part2 |} w1) in
  Server.files (Server.fs w2) !! Derived.stored_name e1 part1 = Some 11%N
  /\ Server.files (Server.fs w2) !! Derived.stored_name e2 part2 = Some 22%N.
Proof.
  cbv zeta.
  apply (distinct_draws_keep_both_files
           {| Server.now := 1763578360378; Server.salt := 911074405;
              Server.create_reply := Store.Assigned "r1" 1763578360400;
              Server.runtime := Derived.sample_runtime |}
           {| Server.now := 1763578360378; Server.salt := 5;
              Server.create_reply := Store.Assigned "r2" 1763578360401;
              Server.runtime := Derived.sample_runtime |}
           {| Server.fieldname := "image"; Server.originalname := "cat.png";
              Server.mimetype := "image/png"; Server.size := 11 |}
           {| Server.fieldname := "image"; Server.originalname := "dog.png";
              Server.mimetype := "image/png"; Server.size := 22 |}
           {| Server.fs := {| Server.files := ∅; Server.written := 0 |};
              Server.collection := [] |}).
  - split; [discriminate|]. split; [reflexivity|].
    split; [right; right; left; reflexivity|].
    split; [left; reflexivity|]. split; reflexivity.
  - split; [discriminate|]. split; [reflexivity|].
    split; [right; right; left; reflexivity|].
    split; [left; reflexivity|]. split; reflexivity.
  - right. discriminate.
Defined.

(** X22. Nothing guards against a repeated name: two stored uploads
    generated at the same millisecond with the same draw, from names of
    the same extension, get one storage filename; the second body
    replaces the first on disk and both records point to that one
    file. *)
Theorem same_draw_overwrites
    (e1 e2 : Server.Env) (part1 part2 : Server.Part) (w : Server.World)
    (id1 id2 : string) (stamp1 stamp2 : N) :
  Derived.storable e1 part1 ->
  Derived.storable e2 part2 ->
  Server.create_reply e1 = Store.Assigned id1 stamp1 ->
  Server.create_reply e2 = Store.Assigned id2 stamp2 ->
  Server.now e1 = Server.now e2 -> Server.salt e1 = Server.salt e2 ->
  Path.extname (Server.originalname part1)
  = Path.extname (Server.originalname part2) ->
  let w1 := fst (Server.post_upload e1 {| Server.req_part := Some part1 |} w) in
  let w2 := fst (Server.post_upload e2 {| Server.req_part := Some part2 |} w1) in
  let r1 := Derived.created_record e1 part1 id1 stamp1 in
  let r2 := Derived.created_record e2 part2 id2 stamp2 in
  Server.collection w2 = Server.collection w ++ [r1; r2]
  /\ Store.location r1 = Store.location r2
  /\ Derived.stored_name e1 part1 = Derived.stored_name e2 part2
  /\ Server.files (Server.fs w2) !! Derived.stored_name e1 part1
     = Some (Server.size part2).
Proof.
  intros Hst1 Hst2 Hr1 Hr2 Hn Hsalt Hext. cbv zeta.
  assert (Hname : Derived.stored_name e1 part1 = Derived.stored_name e2 part2).
  { unfold Derived.stored_name, Storage.filename. now rewrite Hn, Hsalt, Hext. }
  destruct (post_upload_stored e2 part2
              (fst (Server.post_upload e1 {| Server.req_part := Some part1 |} w))
              Hst2) as [-> Hc2].
  rewrite (Hc2 _ _ Hr2).
  destruct (post_upload_stored e1 part1 w Hst1) as [-> Hc1].
  rewrite (Hc1 _ _ Hr1).
  split; [now rewrite <- app_assoc|].
  split.
  - unfold Derived.created_record. cbn [Store.location]. now rewrite Hname.
  - split; [exact Hname|].
    unfold Server.handleFile. cbn [Server.files]. rewrite Hname.
    apply lookup_insert_eq.
Qed.

Lemma same_draw_overwrites_witness :
  let e1 := {| Server.now := 1763578360378; Server.salt := 911074405;
               Server.create_reply := Store.Assigned "r1" 1763578360400;
               Server.runtime := Derived.sample_runtime |} in
  let e2 := {| Server.now := 1763578360378; Server.salt := 911074405;
               Server.create_reply := Store.Assigned "r2" 1763578360401;
               Server.runtime := Derived.sample_runtime |} in
  let part1 := {| Server.fieldname := "image"; Server.originalname := "cat.png";
                  Server.mimetype := "image/png"; Server.size := 11 |} in
  let part2 := {| Server.fieldname := "image"; Server.originalname := "dog.png";
                  Server.mimetype := "image/png"; Server.size := 22 |} in
  let w := {| Server.fs := {| Server.files := ∅; Server.written := 0 |};
              Server.collection := [] |} in
  let w1 := fst (Server.post_upload e1 {| Server.req_part := Some part1 |} w) in
  let w2 := fst (Server.post_upload e2 {| Server.req_part := Some part2 |} w1) in
  Server.files (Server.fs w2) !! Derived.stored_name e1 part1 = Some 22%N.
Proof.
  cbv zeta.
  refine (match same_draw_overwrites
                  {| Server.now := 1763578360378; Server.salt := 911074405;
                     Server.create_reply := Store.Assigned "r1" 1763578360400;
                     Server.runtime := Derived.sample_runtime |}
                  {| Server.now := 1763578360378; Server.salt := 911074405;
                     Server.create_reply := Store.Assigned "r2" 1763578360401;
                     Server.runtime := Derived.sample_runtime |}
                  {| Server.fieldname := "image";
                     Server.originalname := "cat.png";
                     Server.mimetype := "image/png"; Server.size := 11 |}
                  {| Server.fieldname := "image";
                     Server.originalname := "dog.png";
                     Server.mimetype := "image/png"; Server.size := 22 |}
                  {| Server.fs := {| Server.files := ∅; Server.written := 0 |};
                     Server.collection := [] |}
                  "r1" "r2" 1763578360400 1763578360401
                  _ _ eq_refl eq_refl eq_refl eq_refl _ with
          | conj _ (conj _ (conj _ C)) => C
          end).
  - split; [discriminate|]. split; [reflexivity|].
    split; [right; right; left; reflexivity|].
    split; [left; reflexivity|]. split; reflexivity.
  - split; [discriminate|]. split; [reflexivity|].
    split; [right; right; left; reflexivity|].
    split; [left; reflexivity|]. split; reflexivity.
  - vm_compute. reflexivity.
Defined.
